(** * Los Angeles building-permit dashboard: the ETL and aggregation pipeline

    A shallow embedding of [app.py]: the preprocessing of the permit table
    (section 2 of the script), the left join with the contractor table, the
    sidebar filter (section 3) and the four summaries of the tabs (section 5).

    A pandas DataFrame is a list of rows, one record per row, in row order.
    A nullable cell (None, NaN, NaT) is an [option].  Floating-point cells
    are kept as exact rationals ([Q]); a [datetime64[ns]] cell is the integer
    number of nanoseconds since the Unix epoch, as pandas stores it. *)

From Stdlib Require Import ZArith QArith Qround String Ascii.
From stdpp Require Import base decidable option list sorting strings.

Open Scope string_scope.
Open Scope Z_scope.

(** ** Data model *)

(** [datetime64[ns]]: nanoseconds since 1970-01-01T00:00:00. *)
Definition Timestamp := Z.

(** A row of [PERMIT_RECORDS] as loaded: the date and the valuation are still
    text. *)
Module Raw.
Record row := mk {
  ISSUE_DATE : option string;
  VALUATION : option string;
  PERMIT_TYPE : option string;
  CONTRACTOR_BUSINESS_NAME : option string;
  CENSUS_TRACT : option string
}.
End Raw.

(** A row of [records] after the preprocessing; the derived YEAR is the
    last column. *)
Module Permit.
Record row := mk {
  ISSUE_DATE : option Timestamp;
  VALUATION : option Q;
  PERMIT_TYPE : option string;
  CONTRACTOR_BUSINESS_NAME : option string;
  CENSUS_TRACT : option string;
  YEAR : option Z
}.
End Permit.

(** A row of [contractors[['BUSINESS_NAME', 'BUSINESS_TYPE']]]. *)
Module Contractor.
Record row := mk {
  BUSINESS_NAME : option string;
  BUSINESS_TYPE : option string
}.
End Contractor.

(** A row of [merged_df]: the permit columns followed by the two contractor
    columns. *)
Module Merged.
Record row := mk {
  ISSUE_DATE : option Timestamp;
  VALUATION : option Q;
  PERMIT_TYPE : option string;
  CONTRACTOR_BUSINESS_NAME : option string;
  CENSUS_TRACT : option string;
  YEAR : option Z;
  BUSINESS_NAME : option string;
  BUSINESS_TYPE : option string
}.
End Merged.

(** The sidebar state: the slider pair and the two multiselect lists.  The
    multiselect options come from [dropna()], so a selection holds strings
    only. *)
Record FilterCriteria := {
  year_range : Z * Z;
  selected_permits : list string;
  selected_businesses : list string
}.

(** ** Column helpers *)

(** [Series.dropna().tolist()] *)
Definition dropna {A} (col : list (option A)) : list A := omap id col.

(** [Series.unique()]: the distinct values in order of first appearance. *)
Fixpoint unique `{EqDecision A} (l : list A) : list A :=
  match l with
  | [] => []
  | x :: l' => x :: filter (λ y, y ≠ x) (unique l')
  end.

(** [Series.nunique()]: the number of distinct non-null values. *)
Definition nunique `{EqDecision A} (col : list (option A)) : nat :=
  length (unique (dropna col)).

(** [Series.count()]: the number of non-null values. *)
Definition count {A} (col : list (option A)) : nat := length (dropna col).

(** [Series.isin(values)] on one cell; a null cell is in no list of
    strings. *)
Definition isin (cell : option string) (values : list string) : bool :=
  match cell with
  | Some s => bool_decide (s ∈ values)
  | None => false
  end.

(** [cell >= k] and [cell <= k] on a numeric cell; a comparison with NaN is
    False. *)
Definition ge_scalar (cell : option Z) (k : Z) : bool :=
  match cell with
  | Some y => k <=? y
  | None => false
  end.

Definition le_scalar (cell : option Z) (k : Z) : bool :=
  match cell with
  | Some y => y <=? k
  | None => false
  end.

(** Sorting a column or a frame by a key.  pandas' default [quicksort] does
    not promise an order among equal keys, and the order it yields depends
    on the platform; the sort here fixes one, the order of appearance.  The
    properties below are stated so that they hold for any order among equal
    keys. *)
Section stable_sort.
Context {A : Type} (R : relation A) `{!RelDecision R}.

Fixpoint insert_sorted (x : A) (l : list A) : list A :=
  match l with
  | [] => [x]
  | y :: l' => if decide (R x y) then x :: l else y :: insert_sorted x l'
  end.

Definition stable_sort (l : list A) : list A := foldr insert_sorted [] l.
End stable_sort.

(** ** 2. Preprocessing *)

(** [Series.dt.year]: the proleptic Gregorian year of a timestamp. *)
Definition ns_per_day : Z := 86400 * 1000000000.

Definition civil_year_from_days (days : Z) : Z :=
  let z := days + 719468 in
  let era := z / 146097 in
  let doe := z - era * 146097 in
  let yoe := (doe - doe / 1460 + doe / 36524 - doe / 146096) / 365 in
  let doy := doe - (365 * yoe + yoe / 4 - yoe / 100) in
  let mp := (5 * doy + 2) / 153 in
  let m := if mp <? 10 then mp + 3 else mp - 9 in
  yoe + era * 400 + (if m <=? 2 then 1 else 0).

Definition dt_year (t : Timestamp) : Z := civil_year_from_days (t / ns_per_day).

(** [astype(str)]: a null cell of an object column prints as "None". *)
Definition astype_str (cell : option string) : string :=
  match cell with
  | Some s => s
  | None => "None"
  end.

(** [Series.str.replace(pat, repl, regex=False)] for a one-character [pat],
    which is how the script calls it. *)
Fixpoint str_replace (pat : ascii) (repl : string) (s : string) : string :=
  match s with
  | EmptyString => EmptyString
  | String c s' =>
      if decide (c = pat) then repl +:+ str_replace pat repl s'
      else String c (str_replace pat repl s')
  end.

Section Transformer.
(** The two pandas parsers with [errors='coerce'], as functions of one
    non-null cell: [None] is NaT, respectively NaN.  pandas settles the
    date notation once for the column; [to_datetime] is the cell-wise
    function that results. *)
Variable to_datetime : string → option Timestamp.
Variable to_numeric : string → option Q.

(** [records['VALUATION'].astype(str).str.replace("$", "").str.replace(",", "")] *)
Definition strip_currency (cell : option string) : string :=
  str_replace "," "" (str_replace "$" "" (astype_str cell)).

Definition transform_row (r : Raw.row) : Permit.row :=
  let issue_date := Raw.ISSUE_DATE r ≫= to_datetime in
  {| Permit.ISSUE_DATE := issue_date;
     Permit.YEAR := dt_year <$> issue_date;
     Permit.VALUATION := to_numeric (strip_currency (Raw.VALUATION r));
     Permit.PERMIT_TYPE := Raw.PERMIT_TYPE r;
     Permit.CONTRACTOR_BUSINESS_NAME := Raw.CONTRACTOR_BUSINESS_NAME r;
     Permit.CENSUS_TRACT := Raw.CENSUS_TRACT r |}.

Definition transform (records : list Raw.row) : list Permit.row :=
  transform_row <$> records.
End Transformer.

(** ** The left join *)

(** One output row: the permit columns next to the contractor columns. *)
Definition join_row (r : Permit.row) (name type : option string) : Merged.row :=
  {| Merged.ISSUE_DATE := Permit.ISSUE_DATE r;
     Merged.YEAR := Permit.YEAR r;
     Merged.VALUATION := Permit.VALUATION r;
     Merged.PERMIT_TYPE := Permit.PERMIT_TYPE r;
     Merged.CONTRACTOR_BUSINESS_NAME := Permit.CONTRACTOR_BUSINESS_NAME r;
     Merged.CENSUS_TRACT := Permit.CENSUS_TRACT r;
     Merged.BUSINESS_NAME := name;
     Merged.BUSINESS_TYPE := type |}.

(** The contractor rows whose key equals the permit's key.  pandas joins a
    null key with a null key, hence equality of the cells. *)
Definition matches (r : Permit.row) (contractors : list Contractor.row)
    : list Contractor.row :=
  filter (λ c, Contractor.BUSINESS_NAME c = Permit.CONTRACTOR_BUSINESS_NAME r)
         contractors.

(** [records.merge(contractors[[...]], left_on=..., right_on=..., how='left')]:
    left rows in order, one output row per matching right row, and one row
    with null right columns when nothing matches. *)
Definition merge_row (contractors : list Contractor.row) (r : Permit.row)
    : list Merged.row :=
  match matches r contractors with
  | [] => [join_row r None None]
  | cs => (λ c, join_row r (Contractor.BUSINESS_NAME c) (Contractor.BUSINESS_TYPE c)) <$> cs
  end.

Definition merged_df (records : list Permit.row) (contractors : list Contractor.row)
    : list Merged.row :=
  records ≫= merge_row contractors.

(** ** 3. Sidebar filters *)

Definition permit_options (records : list Permit.row) : list string :=
  unique (dropna (Permit.PERMIT_TYPE <$> records)).

Definition business_options (contractors : list Contractor.row) : list string :=
  unique (dropna (Contractor.BUSINESS_TYPE <$> contractors)).

(** The widgets' [value=] and [default=] arguments. *)
Definition default_criteria (records : list Permit.row)
    (contractors : list Contractor.row) : FilterCriteria :=
  {| year_range := (2013, 2023);
     selected_permits := permit_options records;
     selected_businesses := business_options contractors |}.

(** The boolean mask of the row selection. *)
Definition mask (c : FilterCriteria) (m : Merged.row) : bool :=
  ge_scalar (Merged.YEAR m) (fst (year_range c)) &&
  le_scalar (Merged.YEAR m) (snd (year_range c)) &&
  isin (Merged.PERMIT_TYPE m) (selected_permits c) &&
  isin (Merged.BUSINESS_TYPE m) (selected_businesses c).

Definition filtered_df (c : FilterCriteria) (merged : list Merged.row)
    : list Merged.row :=
  filter (λ m, mask c m) merged.

(** The permit columns of a merged row. *)
Definition permit_columns (m : Merged.row) : Permit.row :=
  {| Permit.ISSUE_DATE := Merged.ISSUE_DATE m;
     Permit.YEAR := Merged.YEAR m;
     Permit.VALUATION := Merged.VALUATION m;
     Permit.PERMIT_TYPE := Merged.PERMIT_TYPE m;
     Permit.CONTRACTOR_BUSINESS_NAME := Merged.CONTRACTOR_BUSINESS_NAME m;
     Permit.CENSUS_TRACT := Merged.CENSUS_TRACT m |}.

(** A numeric cell that holds a value between two bounds, both included. *)
Definition year_within (lo hi : Z) (cell : option Z) : Prop :=
  match cell with
  | Some y => lo ≤ y ≤ hi
  | None => False
  end.

#[global] Instance year_within_dec lo hi cell : Decision (year_within lo hi cell) :=
  match cell with
  | Some y => decide (lo ≤ y ≤ hi)
  | None => right (λ H : False, H)
  end.

(** The rows that pass the filter while the widgets are untouched: a year
    on the slider's scale and a permit type and a business type that are
    not null. *)
Definition survives_defaults (m : Merged.row) : Prop :=
  year_within 2013 2023 (Merged.YEAR m) ∧
  is_Some (Merged.PERMIT_TYPE m) ∧ is_Some (Merged.BUSINESS_TYPE m).

#[global] Instance survives_defaults_dec m : Decision (survives_defaults m) :=
  and_dec _ _.

(** One sidebar state narrows another: its year range lies inside the
    other's and its selections are among the other's. *)
Definition narrows (c1 c2 : FilterCriteria) : Prop :=
  (year_range c2).1 ≤ (year_range c1).1 ∧
  (year_range c1).2 ≤ (year_range c2).2 ∧
  selected_permits c1 ⊆ selected_permits c2 ∧
  selected_businesses c1 ⊆ selected_businesses c2.

(** ** 5. The summaries of the four tabs *)

(** Python compares strings by code point; on UTF-8 bytes that is the
    lexicographic order of [String.leb]. *)
Definition string_le (s1 s2 : string) : Prop := String.leb s1 s2.

#[global] Instance string_le_dec : RelDecision string_le :=
  λ s1 s2, decide (Is_true (String.leb s1 s2)).

Section groupby.
Context {A K : Type} `{EqDecision K} (le : relation K) `{!RelDecision le}.

(** [df.groupby(key)] with the defaults [dropna=True, sort=True]: rows with
    a null key are left out, the groups come in key order, and each group
    keeps its rows in frame order. *)
Definition groupby (key : A → option K) (df : list A) : list (K * list A) :=
  (λ k, (k, filter (λ r, key r = Some k) df)) <$>
    stable_sort le (unique (omap key df)).
End groupby.

Definition Qsum (l : list Q) : Q := foldr Qplus 0%Q l.

(** [Series.mean()]: nulls are skipped, and the mean of nothing is NaN.  The
    code computes in [float64]; the mean here is the exact quotient, without
    rounding and without infinities. *)
Definition mean (col : list (option Q)) : option Q :=
  match dropna col with
  | [] => None
  | vs => Some (Qsum vs / inject_Z (Z.of_nat (length vs)))%Q
  end.

Module ByPermitType.
Record row := mk {
  PERMIT_TYPE : string;
  num_contractors : nat;
  num_permits : nat
}.
End ByPermitType.

Module ByCensusTract.
Record row := mk {
  CENSUS_TRACT : string;
  num_contractors : nat;
  avg_cost : option Q
}.
End ByCensusTract.

Module ByYear.
Record row := mk {
  YEAR : Z;
  permit_count : nat
}.
End ByYear.

(** The order of [sort_values("num_contractors", ascending=False)]. *)
Definition num_contractors_ge (a b : ByPermitType.row) : Prop :=
  (ByPermitType.num_contractors b ≤ ByPermitType.num_contractors a)%nat.

#[global] Instance num_contractors_ge_dec : RelDecision num_contractors_ge :=
  λ a b, decide (ByPermitType.num_contractors b ≤ ByPermitType.num_contractors a)%nat.

(** The order of [sort_values("YEAR")]. *)
Definition year_le (a b : ByYear.row) : Prop :=
  ByYear.YEAR a ≤ ByYear.YEAR b.

#[global] Instance year_le_dec : RelDecision year_le :=
  λ a b, decide (ByYear.YEAR a ≤ ByYear.YEAR b).

(** Tab 1. *)
Definition agg_permit (g : string * list Merged.row) : ByPermitType.row :=
  {| ByPermitType.PERMIT_TYPE := g.1;
     ByPermitType.num_contractors :=
       nunique (Merged.CONTRACTOR_BUSINESS_NAME <$> g.2);
     ByPermitType.num_permits := count (Merged.PERMIT_TYPE <$> g.2) |}.

Definition df_permit (filtered : list Merged.row) : list ByPermitType.row :=
  stable_sort num_contractors_ge
    (agg_permit <$> groupby string_le Merged.PERMIT_TYPE filtered).

(** Tab 2. *)
Definition agg_scatter (g : string * list Merged.row) : ByCensusTract.row :=
  {| ByCensusTract.CENSUS_TRACT := g.1;
     ByCensusTract.num_contractors :=
       nunique (Merged.CONTRACTOR_BUSINESS_NAME <$> g.2);
     ByCensusTract.avg_cost := mean (Merged.VALUATION <$> g.2) |}.

Definition df_scatter (filtered : list Merged.row) : list ByCensusTract.row :=
  agg_scatter <$> groupby string_le Merged.CENSUS_TRACT filtered.

(** Tab 3. *)
Definition agg_time (g : Z * list Merged.row) : ByYear.row :=
  {| ByYear.YEAR := g.1;
     ByYear.permit_count := count (Merged.PERMIT_TYPE <$> g.2) |}.

Definition df_time (filtered : list Merged.row) : list ByYear.row :=
  stable_sort year_le (agg_time <$> groupby Z.le Merged.YEAR filtered).

(** Tab 4: [filtered_df.describe(include='all')].  One column of the
    resulting table: the eleven statistics, a cell being null where pandas
    leaves NaN (or NaT). *)

(** A standard deviation is the square root of a rational number; it is kept
    as that radicand. *)
Inductive Surd := Sqrt (radicand : Q).

Module Describe.
Record column := mk {
  count : nat;
  unique : option nat;
  top : option string;
  freq : option nat;
  mean : option Q;
  std : option Surd;
  min : option Q;
  q25 : option Q;
  q50 : option Q;
  q75 : option Q;
  max : option Q
}.
End Describe.

Definition Q_le (a b : Q) : Prop := Qle_bool a b.

#[global] Instance Q_le_dec : RelDecision Q_le :=
  λ a b, decide (Is_true (Qle_bool a b)).

Definition Qlen (l : list Q) : Q := inject_Z (Z.of_nat (length l)).

(** [Series.min()] and [Series.max()] *)
Definition Qminimum (values : list Q) : option Q :=
  match values with
  | [] => None
  | x :: l => Some (foldr (λ a b, if Qle_bool a b then a else b) x l)
  end.

Definition Qmaximum (values : list Q) : option Q :=
  match values with
  | [] => None
  | x :: l => Some (foldr (λ a b, if Qle_bool a b then b else a) x l)
  end.

(** [Series.std()]: the sample standard deviation ([ddof=1]), NaN for fewer
    than two values. *)
Definition std (values : list Q) : option Surd :=
  match values with
  | [] | [_] => None
  | _ =>
      let m := (Qsum values / Qlen values)%Q in
      Some (Sqrt (Qsum ((λ x, (x - m) * (x - m)) <$> values) / (Qlen values - 1))%Q)
  end.

(** [Series.quantile(p)] with the default linear interpolation. *)
Definition quantile (p : Q) (values : list Q) : option Q :=
  match stable_sort Q_le values with
  | [] => None
  | (x0 :: _) as sorted =>
      let h := (p * (Qlen sorted - 1))%Q in
      let i := Qfloor h in
      let g := (h - inject_Z i)%Q in
      let lo := default x0 (sorted !! Z.to_nat i) in
      let hi := default lo (sorted !! Z.to_nat (i + 1)) in
      Some (lo + g * (hi - lo))%Q
  end.

(** [describe_numeric_1d] *)
Definition describe_numeric_1d (col : list (option Q)) : Describe.column :=
  let values := dropna col in
  {| Describe.count := count col;
     Describe.unique := None;
     Describe.top := None;
     Describe.freq := None;
     Describe.mean := mean col;
     Describe.std := std values;
     Describe.min := Qminimum values;
     Describe.q25 := quantile (1 # 4) values;
     Describe.q50 := quantile (1 # 2) values;
     Describe.q75 := quantile (3 # 4) values;
     Describe.max := Qmaximum values |}.

(** [describe_timestamp_1d]: as for numbers, on the nanosecond values and
    without a standard deviation. *)
Definition describe_timestamp_1d (col : list (option Timestamp)) : Describe.column :=
  let values := inject_Z <$> dropna col in
  {| Describe.count := count col;
     Describe.unique := None;
     Describe.top := None;
     Describe.freq := None;
     Describe.mean := mean (Some <$> values);
     Describe.std := None;
     Describe.min := Qminimum values;
     Describe.q25 := quantile (1 # 4) values;
     Describe.q50 := quantile (1 # 2) values;
     Describe.q75 := quantile (3 # 4) values;
     Describe.max := Qmaximum values |}.

(** [Series.value_counts()]: the distinct non-null values with their number
    of occurrences, most frequent first. *)
Definition freq_ge (a b : string * nat) : Prop := (b.2 ≤ a.2)%nat.

#[global] Instance freq_ge_dec : RelDecision freq_ge :=
  λ a b, decide (b.2 ≤ a.2)%nat.

Definition value_counts (col : list (option string)) : list (string * nat) :=
  let values := dropna col in
  stable_sort freq_ge
    ((λ v, (v, length (filter (λ x, x = v) values))) <$> unique values).

(** [describe_categorical_1d]: [top] and [freq] are NaN when no value
    occurs. *)
Definition describe_categorical_1d (col : list (option string)) : Describe.column :=
  let objcounts := value_counts col in
  {| Describe.count := count col;
     Describe.unique := Some (length objcounts);
     Describe.top := fst <$> head objcounts;
     Describe.freq := snd <$> head objcounts;
     Describe.mean := None;
     Describe.std := None;
     Describe.min := None;
     Describe.q25 := None;
     Describe.q50 := None;
     Describe.q75 := None;
     Describe.max := None |}.

(** The table, one entry per column of [filtered_df], in column order: the
    loaded permit columns, the derived YEAR, the two contractor columns. *)
Definition describe (filtered : list Merged.row) : list (string * Describe.column) :=
  [ ("ISSUE_DATE", describe_timestamp_1d (Merged.ISSUE_DATE <$> filtered));
    ("VALUATION", describe_numeric_1d (Merged.VALUATION <$> filtered));
    ("PERMIT_TYPE", describe_categorical_1d (Merged.PERMIT_TYPE <$> filtered));
    ("CONTRACTOR_BUSINESS_NAME",
       describe_categorical_1d (Merged.CONTRACTOR_BUSINESS_NAME <$> filtered));
    ("CENSUS_TRACT", describe_categorical_1d (Merged.CENSUS_TRACT <$> filtered));
    ("YEAR", describe_numeric_1d (fmap inject_Z <$> (Merged.YEAR <$> filtered)));
    ("BUSINESS_NAME", describe_categorical_1d (Merged.BUSINESS_NAME <$> filtered));
    ("BUSINESS_TYPE", describe_categorical_1d (Merged.BUSINESS_TYPE <$> filtered)) ].

(** A column of the statistics table of an empty view: no value counted,
    no distinct value, and every other statistic null. *)
Definition empty_statistics (col : Describe.column) : Prop :=
  Describe.count col = 0%nat ∧
  (Describe.unique col = None ∨ Describe.unique col = Some 0%nat) ∧
  Describe.top col = None ∧ Describe.freq col = None ∧
  Describe.mean col = None ∧ Describe.std col = None ∧
  Describe.min col = None ∧ Describe.q25 col = None ∧
  Describe.q50 col = None ∧ Describe.q75 col = None ∧
  Describe.max col = None.

(** ** Two concrete parsers

    pandas' parsers accept many notations.  The definitions above take them
    as parameters; the two below fix them on the notations of the permit
    table, ISO calendar dates and plain decimal numbers, and coerce every
    other string to null. *)

Definition digit (c : ascii) : option Z :=
  let n := Z.of_N (N_of_ascii c) in
  if (48 <=? n) && (n <=? 57) then Some (n - 48) else None.

(** The value of a run of decimal digits, continuing from [acc]. *)
Fixpoint digits_from (acc : Z) (s : string) : option Z :=
  match s with
  | EmptyString => Some acc
  | String c s' => d ← digit c; digits_from (10 * acc + d) s'
  end.

Definition natural (s : string) : option Z :=
  if decide (s = "") then None else digits_from 0 s.

Definition is_leap (y : Z) : bool :=
  (y mod 4 =? 0) && (negb (y mod 100 =? 0) || (y mod 400 =? 0)).

Definition days_in_month (y m : Z) : Z :=
  if m =? 2 then (if is_leap y then 29 else 28)
  else if (m =? 4) || (m =? 6) || (m =? 9) || (m =? 11) then 30
  else 31.

(** Days from 1970-01-01 to the given proleptic Gregorian date. *)
Definition days_from_civil (y m d : Z) : Z :=
  let y' := if m <=? 2 then y - 1 else y in
  let era := y' / 400 in
  let yoe := y' - era * 400 in
  let doy := (153 * (if 2 <? m then m - 3 else m + 9) + 2) / 5 + d - 1 in
  let doe := yoe * 365 + yoe / 4 - yoe / 100 + doy in
  era * 146097 + doe - 719468.

(** A date of the proleptic Gregorian calendar. *)
Definition civil_date (y m d : Z) : Prop :=
  1 ≤ m ≤ 12 ∧ 1 ≤ d ≤ days_in_month y m.

(** A day number within a year that is counted from 1 March, in the
    400-year cycle whose year [yoe + 1] may add the leap day at its end. *)
Definition day_of_march_year (yoe doy : Z) : Prop :=
  0 ≤ doy ∧
  (doy ≤ 364 ∨
   (doy = 365 ∧ (yoe + 1) mod 4 = 0 ∧
    ((yoe + 1) mod 100 ≠ 0 ∨ (yoe + 1) mod 400 = 0))).

(** The number that a run of decimal digits writes, most significant digit
    first. *)
Fixpoint positional_value (ds : list Z) : Z :=
  match ds with
  | [] => 0
  | d :: ds' => d * 10 ^ Z.of_nat (length ds') + positional_value ds'
  end.

(** The bounds of [datetime64[ns]]; the least 64-bit integer is NaT. *)
Definition in_ns_bounds (t : Z) : bool :=
  (- 2 ^ 63 <? t) && (t <? 2 ^ 63).

(** [pd.to_datetime(s, errors='coerce')] on a date written [YYYY-MM-DD]. *)
Definition to_datetime_iso (s : string) : option Timestamp :=
  if decide (String.length s = 10%nat ∧
             String.get 4 s = Some "-"%char ∧ String.get 7 s = Some "-"%char)
  then
    y ← natural (substring 0 4 s);
    m ← natural (substring 5 2 s);
    d ← natural (substring 8 2 s);
    let t := days_from_civil y m d * ns_per_day in
    if (1 <=? m) && (m <=? 12) && (1 <=? d) && (d <=? days_in_month y m)
       && in_ns_bounds t
    then Some t else None
  else None.

(** The text before the first "." and, when there is one, the text after. *)
Fixpoint split_at_dot (s : string) : string * option string :=
  match s with
  | EmptyString => (EmptyString, None)
  | String c s' =>
      if decide (c = "."%char) then (EmptyString, Some s')
      else let '(a, b) := split_at_dot s' in (String c a, b)
  end.

Definition unsigned_decimal (s : string) : option Q :=
  let '(ip, fp) := split_at_dot s in
  let fp := default "" fp in
  if decide (ip = "" ∧ fp = "") then None
  else
    i ← digits_from 0 ip;
    f ← digits_from 0 fp;
    Some (inject_Z i + (f # Z.to_pos (10 ^ Z.of_nat (String.length fp))))%Q.

(** [pd.to_numeric(s, errors='coerce')] on a signed decimal number. *)
Definition to_numeric_decimal (s : string) : option Q :=
  match s with
  | String "-" s' => Qopp <$> unsigned_decimal s'
  | String "+" s' => unsigned_decimal s'
  | _ => unsigned_decimal s
  end.

(** ** Sample data

    The permit of the worked example, the contractor it names, and the
    criteria of the second worked example. *)

Definition acme_raw : Raw.row :=
  {| Raw.ISSUE_DATE := Some "2019-05-01";
     Raw.VALUATION := Some "$12,000";
     Raw.PERMIT_TYPE := Some "Electrical";
     Raw.CONTRACTOR_BUSINESS_NAME := Some "Acme";
     Raw.CENSUS_TRACT := Some "2060.31" |}.

(** A permit whose date and valuation are not in any notation. *)
Definition garbled_raw : Raw.row :=
  {| Raw.ISSUE_DATE := Some "not a date";
     Raw.VALUATION := Some "n/a";
     Raw.PERMIT_TYPE := Some "Electrical";
     Raw.CONTRACTOR_BUSINESS_NAME := Some "Acme";
     Raw.CENSUS_TRACT := Some "2060.31" |}.

Definition acme_permit : Permit.row :=
  transform_row to_datetime_iso to_numeric_decimal acme_raw.

Definition acme_contractor : Contractor.row :=
  {| Contractor.BUSINESS_NAME := Some "Acme";
     Contractor.BUSINESS_TYPE := Some "Plumbing" |}.

(** A second electrical permit, by another contractor, and the join of the
    two permits with the two contractors. *)
Definition bolt_raw : Raw.row :=
  {| Raw.ISSUE_DATE := Some "2021-11-30";
     Raw.VALUATION := Some "$3,500.50";
     Raw.PERMIT_TYPE := Some "Electrical";
     Raw.CONTRACTOR_BUSINESS_NAME := Some "Bolt";
     Raw.CENSUS_TRACT := Some "2060.31" |}.

Definition bolt_permit : Permit.row :=
  transform_row to_datetime_iso to_numeric_decimal bolt_raw.

Definition bolt_contractor : Contractor.row :=
  {| Contractor.BUSINESS_NAME := Some "Bolt";
     Contractor.BUSINESS_TYPE := Some "Plumbing" |}.

Definition sample_merged : list Merged.row :=
  merged_df [acme_permit; bolt_permit] [acme_contractor; bolt_contractor].

(** The criteria that select everything in [sample_merged]. *)
Definition sample_criteria : FilterCriteria :=
  default_criteria [acme_permit; bolt_permit] [acme_contractor; bolt_contractor].

Definition only_2020 : FilterCriteria :=
  {| year_range := (2020, 2020);
     selected_permits := ["Electrical"];
     selected_businesses := ["Plumbing"] |}.

(** * Properties *)

(** ** Columns *)

Section column_facts.
Context `{EqDecision A}.

Lemma elem_of_unique (x : A) (l : list A) : x ∈ unique l ↔ x ∈ l.
Proof.
  induction l as [|y l IH]; simpl; [done|].
  rewrite !elem_of_cons, list_elem_of_filter, IH.
  destruct (decide (x = y)); intuition.
Qed.

Lemma NoDup_unique (l : list A) : NoDup (unique l).
Proof.
  induction l as [|y l IH]; simpl; [constructor|].
  constructor.
  - rewrite list_elem_of_filter. intros [Hne _]. by apply Hne.
  - by apply NoDup_filter.
Qed.

End column_facts.

Lemma elem_of_dropna {A} (x : A) (col : list (option A)) :
  x ∈ dropna col ↔ Some x ∈ col.
Proof.
  unfold dropna. rewrite list_elem_of_omap. split.
  - intros (o & Ho & Heq). simpl in Heq. by subst.
  - intros H. by exists (Some x).
Qed.

(** Counting the non-null cells of a column without nulls counts its rows. *)
Lemma count_all_Some {A} (col : list (option A)) :
  Forall is_Some col → count col = length col.
Proof.
  unfold count, dropna.
  induction 1 as [|o col [x ->] _ IH]; simpl; [done|]. by f_equal.
Qed.

(** ** Sorting *)

Section stable_sort_facts.
Context {A : Type} (R : relation A) `{!RelDecision R}.

Lemma insert_sorted_Permutation (x : A) (l : list A) :
  insert_sorted R x l ≡ₚ x :: l.
Proof.
  induction l as [|y l IH]; simpl; [done|].
  case_decide; [done|]. rewrite IH. apply Permutation_swap.
Qed.

Lemma stable_sort_Permutation (l : list A) : stable_sort R l ≡ₚ l.
Proof.
  induction l as [|x l IH]; simpl; [done|].
  by rewrite insert_sorted_Permutation, IH.
Qed.

Lemma HdRel_insert_sorted (a x : A) (l : list A) :
  R a x → HdRel R a l → HdRel R a (insert_sorted R x l).
Proof.
  intros Hax Hl. destruct l as [|y l]; simpl; [by constructor|].
  case_decide; constructor; [done|]. by inversion Hl.
Qed.

Lemma Sorted_insert_sorted `{!Total R} (x : A) (l : list A) :
  Sorted R l → Sorted R (insert_sorted R x l).
Proof.
  induction 1 as [|y l Hl IH Hy]; simpl.
  - repeat constructor.
  - case_decide as Hxy.
    + repeat constructor; done.
    + constructor; [done|].
      apply HdRel_insert_sorted; [|done].
      by destruct (total R x y).
Qed.

Lemma Sorted_stable_sort `{!Total R} (l : list A) : Sorted R (stable_sort R l).
Proof.
  induction l as [|x l IH]; simpl; [constructor|].
  by apply Sorted_insert_sorted.
Qed.

Lemma StronglySorted_stable_sort `{!Transitive R, !Total R} (l : list A) :
  StronglySorted R (stable_sort R l).
Proof. apply Sorted_StronglySorted; [done|]. apply Sorted_stable_sort. Qed.

Lemma elem_of_stable_sort (x : A) (l : list A) : x ∈ stable_sort R l ↔ x ∈ l.
Proof. by rewrite stable_sort_Permutation. Qed.

Lemma stable_sort_length (l : list A) : length (stable_sort R l) = length l.
Proof. by rewrite stable_sort_Permutation. Qed.
End stable_sort_facts.

(** ** The filter *)

(** What the mask asks of a row. *)
Lemma mask_true (c : FilterCriteria) (m : Merged.row) :
  mask c m ↔
  ∃ y pt bt,
    Merged.YEAR m = Some y ∧ (year_range c).1 ≤ y ≤ (year_range c).2 ∧
    Merged.PERMIT_TYPE m = Some pt ∧ pt ∈ selected_permits c ∧
    Merged.BUSINESS_TYPE m = Some bt ∧ bt ∈ selected_businesses c.
Proof.
  unfold mask, ge_scalar, le_scalar, isin.
  rewrite !andb_True.
  destruct (Merged.YEAR m) as [y|], (Merged.PERMIT_TYPE m) as [pt|],
    (Merged.BUSINESS_TYPE m) as [bt|]; simpl;
    try (split; [intuition | intros (? & ? & ? & ? & ? & ? & ? & ? & ?); discriminate]).
  rewrite !bool_decide_spec, !Is_true_true, !Z.leb_le. split.
  - intros [[[? ?] ?] ?]. exists y, pt, bt. repeat split; done.
  - intros (? & ? & ? & [= <-] & [? ?] & [= <-] & ? & [= <-] & ?).
    repeat split; done.
Qed.

Lemma elem_of_filtered_df (c : FilterCriteria) (merged : list Merged.row) m :
  m ∈ filtered_df c merged ↔ mask c m ∧ m ∈ merged.
Proof. unfold filtered_df. by rewrite list_elem_of_filter. Qed.

(** The comparisons and the membership test answer False on a null cell. *)
Lemma null_tests_false (k : Z) (values : list string) :
  ge_scalar None k = false ∧ le_scalar None k = false ∧ isin None values = false.
Proof. done. Qed.

(** A row with a null YEAR, PERMIT_TYPE or BUSINESS_TYPE fails the mask. *)
Lemma null_row_fails_mask (c : FilterCriteria) (m : Merged.row) :
  Merged.YEAR m = None ∨ Merged.PERMIT_TYPE m = None ∨
    Merged.BUSINESS_TYPE m = None →
  ¬ mask c m.
Proof.
  intros Hnull. rewrite mask_true.
  intros (y & pt & bt & Hy & _ & Hpt & _ & Hbt & _).
  destruct Hnull as [H|[H|H]]; congruence.
Qed.

(** C3.  A row whose YEAR, PERMIT_TYPE or BUSINESS_TYPE is null fails the
    mask of every FilterCriteria, so it is in no FilteredView. *)
Theorem filter_excludes_null_rows
    (c : FilterCriteria) (merged : list Merged.row) (m : Merged.row) :
  Merged.YEAR m = None ∨ Merged.PERMIT_TYPE m = None ∨
    Merged.BUSINESS_TYPE m = None →
  mask c m = false ∧ m ∉ filtered_df c merged.
Proof.
  intros Hnull. pose proof (null_row_fails_mask c m Hnull) as Hmask.
  split.
  - by destruct (mask c m).
  - rewrite elem_of_filtered_df. tauto.
Qed.

(** C6.  Filtering a FilteredView again with the same criteria changes
    nothing. *)
Theorem filter_idempotent (c : FilterCriteria) (merged : list Merged.row) :
  filtered_df c (filtered_df c merged) = filtered_df c merged.
Proof.
  unfold filtered_df.
  induction merged as [|m merged IH]; [done|].
  rewrite (filter_cons _ m merged).
  destruct (decide (mask c m)) as [Hm|Hm]; [|done].
  rewrite (filter_cons _ m (filter _ merged)), decide_True by done.
  by rewrite IH.
Qed.

(** ** Row selections *)

Section filter_facts.
Context {A : Type} (P Q : A → Prop) `{!∀ x, Decision (P x), !∀ x, Decision (Q x)}.

Lemma filter_ext_Forall (l : list A) :
  Forall (λ x, P x ↔ Q x) l → filter P l = filter Q l.
Proof.
  induction 1 as [|x l Hx _ IH]; [done|].
  rewrite !filter_cons, IH.
  destruct (decide (P x)), (decide (Q x)); tauto.
Qed.

Lemma filter_all (l : list A) : Forall P l → filter P l = l.
Proof.
  induction 1 as [|x l Hx _ IH]; [done|].
  by rewrite filter_cons, decide_True, IH.
Qed.

Lemma filter_none (l : list A) : Forall (λ x, ¬ P x) l → filter P l = [].
Proof.
  induction 1 as [|x l Hx _ IH]; [done|].
  by rewrite filter_cons, decide_False.
Qed.
End filter_facts.

(** ** The left join *)

(** Among rows with pairwise distinct keys at most one has a given key. *)
Lemma filter_key_NoDup {A K} `{EqDecision K} (f : A → K) (k : K) (l : list A) :
  NoDup (f <$> l) → (length (filter (λ c, f c = k) l) ≤ 1)%nat.
Proof.
  induction l as [|c l IH]; simpl; [auto|].
  rewrite NoDup_cons, filter_cons. intros [Hc Hl].
  destruct (decide (f c = k)) as [<-|]; [|auto].
  rewrite filter_none; [done|].
  apply Forall_forall. intros c' Hc' Heq. apply Hc.
  rewrite <- Heq. by apply list_elem_of_fmap_2.
Qed.

Lemma permit_columns_join_row (r : Permit.row) (name type : option string) :
  permit_columns (join_row r name type) = r.
Proof. by destruct r. Qed.

(** The rows a permit contributes to the join. *)
Lemma elem_of_merge_row (contractors : list Contractor.row) (r : Permit.row) m :
  m ∈ merge_row contractors r →
  permit_columns m = r ∧
  (Merged.BUSINESS_TYPE m = None ∨
   ∃ c, c ∈ contractors ∧ Merged.BUSINESS_TYPE m = Contractor.BUSINESS_TYPE c).
Proof.
  unfold merge_row.
  destruct (matches r contractors) as [|c cs] eqn:Hcs.
  - intros ->%list_elem_of_singleton.
    split; [apply permit_columns_join_row | by left].
  - intros (c' & -> & Hc')%list_elem_of_fmap.
    split; [apply permit_columns_join_row|]. right. exists c'. split; [|done].
    rewrite <- Hcs in Hc'. unfold matches in Hc'.
    by apply list_elem_of_filter in Hc' as [_ ?].
Qed.

(** With distinct contractor names a permit contributes exactly one row. *)
Lemma merge_row_singleton (contractors : list Contractor.row) (r : Permit.row) :
  NoDup (Contractor.BUSINESS_NAME <$> contractors) →
  ∃ m, merge_row contractors r = [m] ∧ permit_columns m = r ∧
    ((∀ c, c ∈ contractors →
        Contractor.BUSINESS_NAME c ≠ Permit.CONTRACTOR_BUSINESS_NAME r) →
     Merged.BUSINESS_NAME m = None ∧ Merged.BUSINESS_TYPE m = None).
Proof.
  intros Hnd.
  pose proof (filter_key_NoDup Contractor.BUSINESS_NAME
                (Permit.CONTRACTOR_BUSINESS_NAME r) contractors Hnd) as Hlen.
  unfold merge_row, matches.
  destruct (filter _ contractors) as [|c [|c' cs]] eqn:Hcs; simpl in Hlen.
  - eexists. split; [done|]. split; [apply permit_columns_join_row | done].
  - eexists. split; [done|]. split; [apply permit_columns_join_row|].
    intros Hno. exfalso.
    assert (c ∈ filter (λ c, Contractor.BUSINESS_NAME c =
                             Permit.CONTRACTOR_BUSINESS_NAME r) contractors) as Hc
      by (rewrite Hcs; apply list_elem_of_here).
    apply list_elem_of_filter in Hc as [Heq Hin]. by apply (Hno c).
  - lia.
Qed.

(** C2.  When the contractors' BUSINESS_NAME cells are pairwise distinct, the
    left join has as many rows as the permit table; its i-th row carries the
    columns of the i-th permit, and when no contractor has the permit's
    contractor name its BUSINESS_TYPE (and BUSINESS_NAME) is null. *)
Theorem left_join_preserves_row_count
    (records : list Permit.row) (contractors : list Contractor.row) :
  NoDup (Contractor.BUSINESS_NAME <$> contractors) →
  length (merged_df records contractors) = length records ∧
  ∀ (i : nat) (r : Permit.row), records !! i = Some r →
    ∃ m, merged_df records contractors !! i = Some m ∧
      permit_columns m = r ∧
      ((∀ c, c ∈ contractors →
          Contractor.BUSINESS_NAME c ≠ Permit.CONTRACTOR_BUSINESS_NAME r) →
       Merged.BUSINESS_NAME m = None ∧ Merged.BUSINESS_TYPE m = None).
Proof.
  intros Hnd. unfold merged_df.
  induction records as [|r0 records [IHlen IHrow]].
  - split; [done|]. intros i r Hi. by rewrite lookup_nil in Hi.
  - rewrite bind_cons.
    destruct (merge_row_singleton contractors r0 Hnd) as (m0 & -> & Hm0).
    split; [simpl; by rewrite IHlen|].
    intros [|i] r Hi; simpl in *.
    + injection Hi as <-. by exists m0.
    + by apply IHrow.
Qed.

(** ** The default criteria *)

Lemma elem_of_merged_df records contractors (m : Merged.row) :
  m ∈ merged_df records contractors ↔
  ∃ r, m ∈ merge_row contractors r ∧ r ∈ records.
Proof. unfold merged_df. apply list_elem_of_bind. Qed.

(** Every permit type of the join is among the permit options, and every
    business type of the join is among the business options. *)
Lemma merged_permit_type_in_options records contractors m (pt : string) :
  m ∈ merged_df records contractors →
  Merged.PERMIT_TYPE m = Some pt → pt ∈ permit_options records.
Proof.
  rewrite elem_of_merged_df. intros (r & Hm & Hr) Hpt.
  apply elem_of_merge_row in Hm as [<- _].
  unfold permit_options. rewrite elem_of_unique, elem_of_dropna.
  apply list_elem_of_fmap. eexists. split; [|exact Hr]. by rewrite <- Hpt.
Qed.

Lemma merged_business_type_in_options records contractors m (bt : string) :
  m ∈ merged_df records contractors →
  Merged.BUSINESS_TYPE m = Some bt → bt ∈ business_options contractors.
Proof.
  rewrite elem_of_merged_df. intros (r & Hm & _) Hbt.
  apply elem_of_merge_row in Hm as [_ [Hnone|(c & Hc & Heq)]]; [congruence|].
  unfold business_options. rewrite elem_of_unique, elem_of_dropna.
  apply list_elem_of_fmap. exists c. split; [congruence | done].
Qed.

Lemma default_mask_survives records contractors (m : Merged.row) :
  m ∈ merged_df records contractors →
  mask (default_criteria records contractors) m ↔ survives_defaults m.
Proof.
  intros Hm. rewrite mask_true. unfold survives_defaults, year_within. simpl.
  split.
  - intros (y & pt & bt & -> & Hy & -> & _ & -> & _).
    split; [exact Hy|]. split; by eexists.
  - destruct (Merged.YEAR m) as [y|] eqn:Hy; [|tauto].
    intros (Hrange & [pt Hpt] & [bt Hbt]).
    exists y, pt, bt. repeat split; try done; try apply Hrange.
    + by eapply merged_permit_type_in_options.
    + by eapply merged_business_type_in_options.
Qed.

(** C1, amended.  With the widgets untouched the filter keeps exactly the
    merged rows whose YEAR lies in 2013..2023 and whose PERMIT_TYPE and
    BUSINESS_TYPE are not null; when every merged row is such a row, the
    FilteredView is the whole merged dataset. *)
Theorem default_filter_keeps_surviving_rows
    (records : list Permit.row) (contractors : list Contractor.row) :
  filtered_df (default_criteria records contractors)
              (merged_df records contractors)
  = filter survives_defaults (merged_df records contractors) ∧
  (Forall survives_defaults (merged_df records contractors) →
   filtered_df (default_criteria records contractors)
               (merged_df records contractors)
   = merged_df records contractors).
Proof.
  assert (filtered_df (default_criteria records contractors)
                      (merged_df records contractors)
          = filter survives_defaults (merged_df records contractors)) as Heq.
  { unfold filtered_df. apply filter_ext_Forall, Forall_forall.
    intros m Hm. by apply default_mask_survives. }
  split; [done|].
  intros Hall. rewrite Heq. by apply filter_all.
Qed.

Lemma default_filter_keeps_surviving_rows_witness :
  Forall survives_defaults (merged_df [acme_permit] [acme_contractor]) ∧
  filtered_df (default_criteria [acme_permit] [acme_contractor])
              (merged_df [acme_permit] [acme_contractor])
  = merged_df [acme_permit] [acme_contractor].
Proof.
  assert (Forall survives_defaults (merged_df [acme_permit] [acme_contractor]))
    as Hall.
  { apply Forall_forall. intros m Hm. vm_compute in Hm.
    apply list_elem_of_singleton in Hm as ->.
    repeat split; vm_compute; try congruence; eauto. }
  split; [exact Hall|].
  exact (proj2 (default_filter_keeps_surviving_rows
                  [acme_permit] [acme_contractor]) Hall).
Defined.

(** C1 as stated fails: a permit whose contractor is missing from the
    contractor table has a null BUSINESS_TYPE after the join, and the default
    criteria drop it. *)
Lemma default_filter_drops_unmatched_permit :
  filtered_df (default_criteria [acme_permit] [bolt_contractor])
              (merged_df [acme_permit] [bolt_contractor])
  ≠ merged_df [acme_permit] [bolt_contractor].
Proof. vm_compute. discriminate. Qed.

(** ** The transformer *)

(** Replacing a character by nothing deletes its occurrences and keeps
    the rest of the text in order. *)
Lemma str_replace_empty (pat : ascii) (s : string) :
  list_ascii_of_string (str_replace pat "" s)
  = filter (λ c, c ≠ pat) (list_ascii_of_string s).
Proof.
  induction s as [|c s IH]; simpl; [done|].
  rewrite filter_cons.
  destruct (decide (c = pat)) as [->|Hne]; simpl.
  - by rewrite decide_False by tauto.
  - rewrite decide_True by done. by f_equal.
Qed.

(** The text handed to the numeric parser is the cell's text without its
    "$" and "," characters. *)
Lemma strip_currency_spec (cell : option string) :
  list_ascii_of_string (strip_currency cell)
  = filter (λ c, c ≠ "$"%char ∧ c ≠ ","%char)
           (list_ascii_of_string (astype_str cell)).
Proof.
  unfold strip_currency. rewrite !str_replace_empty, list_filter_filter.
  apply list_filter_iff. tauto.
Qed.

(** C4.  A row whose ISSUE_DATE text the date parser rejects gets a null
    YEAR, and whatever the criteria, no merged row made from it is in the
    FilteredView. *)
Theorem unparseable_date_excluded
    (to_datetime : string → option Timestamp) (to_numeric : string → option Q)
    (r : Raw.row) (s : string) :
  Raw.ISSUE_DATE r = Some s → to_datetime s = None →
  Permit.YEAR (transform_row to_datetime to_numeric r) = None ∧
  ∀ (contractors : list Contractor.row) (m : Merged.row),
    m ∈ merge_row contractors (transform_row to_datetime to_numeric r) →
    Merged.YEAR m = None ∧
    ∀ (c : FilterCriteria) (merged : list Merged.row), m ∉ filtered_df c merged.
Proof.
  intros Hs Hparse.
  assert (Permit.YEAR (transform_row to_datetime to_numeric r) = None) as Hyear.
  { unfold transform_row. simpl. by rewrite Hs; simpl; rewrite Hparse. }
  split; [done|].
  intros contractors m Hm.
  apply elem_of_merge_row in Hm as [Hcols _].
  assert (Merged.YEAR m = None) as Hnone.
  { rewrite <- Hcols in Hyear. exact Hyear. }
  split; [done|].
  intros c merged. rewrite elem_of_filtered_df.
  intros [Hmask _]. revert Hmask. apply null_row_fails_mask. by left.
Qed.

Lemma unparseable_date_excluded_witness :
  Raw.ISSUE_DATE garbled_raw = Some "not a date" ∧
  to_datetime_iso "not a date" = None ∧
  Permit.YEAR (transform_row to_datetime_iso to_numeric_decimal garbled_raw)
  = None ∧
  ∀ m,
    m ∈ merge_row [acme_contractor]
          (transform_row to_datetime_iso to_numeric_decimal garbled_raw) →
    m ∉ filtered_df sample_criteria
          (merged_df (transform to_datetime_iso to_numeric_decimal
                        [acme_raw; garbled_raw])
                     [acme_contractor]).
Proof.
  split; [reflexivity|]. split; [reflexivity|].
  destruct (unparseable_date_excluded to_datetime_iso to_numeric_decimal
              garbled_raw "not a date" eq_refl eq_refl) as [Hyear Hrows].
  split; [exact Hyear|].
  intros m Hm. exact (proj2 (Hrows [acme_contractor] m Hm) _ _).
Defined.

(** *** The year of a timestamp *)

Ltac div_lia := Z.to_euclidean_division_equations; lia.

(** Within the 400-year cycle the year is recovered from the day number. *)
Lemma year_of_era_day (yoe doy : Z) :
  0 ≤ yoe < 400 → day_of_march_year yoe doy →
  0 ≤ yoe * 365 + yoe / 4 - yoe / 100 + doy < 146097 ∧
  (yoe * 365 + yoe / 4 - yoe / 100 + doy
   - (yoe * 365 + yoe / 4 - yoe / 100 + doy) / 1460
   + (yoe * 365 + yoe / 4 - yoe / 100 + doy) / 36524
   - (yoe * 365 + yoe / 4 - yoe / 100 + doy) / 146096) / 365 = yoe.
Proof. intros Hyoe [Hdoy0 Hdoy]. split; div_lia. Qed.

(** The year of a day given by cycle, year of the cycle and day of the
    March-based year: January and February count for the next year. *)
Lemma civil_year_of_era_day (era yoe doy : Z) :
  0 ≤ yoe < 400 → day_of_march_year yoe doy →
  civil_year_from_days
    (era * 146097 + (yoe * 365 + yoe / 4 - yoe / 100 + doy) - 719468)
  = yoe + era * 400 + (if 306 <=? doy then 1 else 0).
Proof.
  intros Hyoe Hdoy.
  destruct (year_of_era_day yoe doy Hyoe Hdoy) as [Hdoe Hback].
  set (doe := yoe * 365 + yoe / 4 - yoe / 100 + doy) in *.
  unfold civil_year_from_days.
  replace (era * 146097 + doe - 719468 + 719468) with (doe + era * 146097)
    by lia.
  rewrite Z.div_add by lia. rewrite (Z.div_small doe) by lia.
  cbn zeta. replace (doe + era * 146097 - (0 + era) * 146097) with doe by lia.
  rewrite Hback.
  replace (doe - (365 * yoe + yoe / 4 - yoe / 100)) with doy
    by (unfold doe; lia).
  replace (0 + era) with era by lia.
  destruct Hdoy as [Hdoy0 Hdoy].
  assert (0 ≤ (5 * doy + 2) / 153 ≤ 11) as Hmp by div_lia.
  assert ((5 * doy + 2) / 153 < 10 ↔ doy < 306) as Hmp10 by div_lia.
  destruct (Z.ltb_spec ((5 * doy + 2) / 153) 10),
    (Z.leb_spec 306 doy); try lia.
  - destruct (Z.leb_spec ((5 * doy + 2) / 153 + 3) 2); lia.
  - destruct (Z.leb_spec ((5 * doy + 2) / 153 - 9) 2); lia.
Qed.

(** The year of the day number of a calendar date is the date's year, for
    every year, positive or not. *)
Lemma civil_year_from_days_from_civil (y m d : Z) :
  civil_date y m d → civil_year_from_days (days_from_civil y m d) = y.
Proof.
  intros [Hm Hd]. unfold days_from_civil.
  set (y' := if m <=? 2 then y - 1 else y).
  set (mp := if 2 <? m then m - 3 else m + 9).
  set (era := y' / 400).
  set (yoe := y' - era * 400).
  set (doy := (153 * mp + 2) / 5 + d - 1).
  cbn zeta.
  assert (0 ≤ yoe < 400) as Hyoe by (unfold yoe, era; div_lia).
  assert (y' = yoe + era * 400) as Hy' by (unfold yoe; lia).
  assert (day_of_march_year yoe doy ∧ (306 ≤ doy ↔ m ≤ 2)) as [Hdoy Hcarry].
  { unfold day_of_march_year, doy, mp.
    unfold days_in_month, is_leap in Hd.
    assert (y mod 4 = (if m <=? 2 then yoe + 1 else y) mod 4) as H4.
    { destruct (Z.leb_spec m 2); [|done]. subst y'. div_lia. }
    assert (y mod 100 = (if m <=? 2 then yoe + 1 else y) mod 100) as H100.
    { destruct (Z.leb_spec m 2); [|done]. subst y'. div_lia. }
    assert (y mod 400 = (if m <=? 2 then yoe + 1 else y) mod 400) as H400.
    { destruct (Z.leb_spec m 2); [|done]. subst y'. div_lia. }
    assert (m = 1 ∨ m = 2 ∨ m = 3 ∨ m = 4 ∨ m = 5 ∨ m = 6 ∨ m = 7 ∨ m = 8 ∨
            m = 9 ∨ m = 10 ∨ m = 11 ∨ m = 12) as Hcases by lia.
    destruct Hcases
      as [->|[->|[->|[->|[->|[->|[->|[->|[->|[->|[->| ->]]]]]]]]]]];
      simpl in Hd, H4, H100, H400 |- *; try div_lia.
    destruct (Z.eqb_spec (y mod 4) 0), (Z.eqb_spec (y mod 100) 0),
      (Z.eqb_spec (y mod 400) 0); simpl in Hd; div_lia. }
  rewrite civil_year_of_era_day by done.
  destruct (Z.leb_spec 306 doy), (Z.leb_spec m 2); subst y'; try lia.
Qed.

(** [dt.year] of a timestamp that falls on a calendar date, at any time of
    the day, is the year of the date. *)
Lemma dt_year_of_civil_date (y m d tod : Z) :
  civil_date y m d → 0 ≤ tod < ns_per_day →
  dt_year (days_from_civil y m d * ns_per_day + tod) = y.
Proof.
  intros Hdate Htod. unfold dt_year.
  rewrite Z.add_comm, Z.div_add by (unfold ns_per_day; lia).
  rewrite (Z.div_small tod) by done. simpl.
  by apply civil_year_from_days_from_civil.
Qed.

(** What the ISO parser accepts: ten characters that write a calendar date;
    the timestamp is the midnight that begins it. *)
Lemma to_datetime_iso_Some (s : string) (t : Timestamp) :
  to_datetime_iso s = Some t →
  ∃ y m d,
    natural (substring 0 4 s) = Some y ∧ natural (substring 5 2 s) = Some m ∧
    natural (substring 8 2 s) = Some d ∧ civil_date y m d ∧
    t = days_from_civil y m d * ns_per_day.
Proof.
  unfold to_datetime_iso. case_decide as Hshape; [|done].
  destruct (natural (substring 0 4 s)) as [y|]; [|done].
  destruct (natural (substring 5 2 s)) as [m|]; [|done].
  destruct (natural (substring 8 2 s)) as [d|]; [|done].
  simpl.
  destruct ((1 <=? m) && (m <=? 12) && (1 <=? d) && (d <=? days_in_month y m)
            && in_ns_bounds (days_from_civil y m d * ns_per_day)) eqn:Hok;
    [|done].
  intros [= <-]. exists y, m, d.
  rewrite !andb_true_iff, !Z.leb_le in Hok.
  destruct Hok as [[[[? ?] ?] ?] _]. by repeat split.
Qed.

(** *** The digits of a valuation *)

Lemma digit_range (ch : ascii) (dgt : Z) :
  digit ch = Some dgt → 0 ≤ dgt ≤ 9 ∧ ch ≠ "-"%char ∧ ch ≠ "+"%char ∧ ch ≠ "."%char.
Proof.
  unfold digit.
  destruct ((48 <=? Z.of_N (N_of_ascii ch)) && (Z.of_N (N_of_ascii ch) <=? 57))
    eqn:Hrange; [|done].
  intros [= <-]. rewrite andb_true_iff, !Z.leb_le in Hrange.
  split; [lia|]. repeat split; intros ->; simpl in Hrange; lia.
Qed.

(** Reading a run of digits from left to right gives their positional
    value. *)
Lemma digits_from_positional (acc : Z) (s : string) (ds : list Z) :
  Forall2 (λ ch dgt, digit ch = Some dgt) (list_ascii_of_string s) ds →
  digits_from acc s
  = Some (acc * 10 ^ Z.of_nat (length ds) + positional_value ds).
Proof.
  revert acc ds. induction s as [|ch s IH]; intros acc ds Hds; simpl in Hds.
  - apply Forall2_nil_inv_l in Hds as ->. simpl. f_equal. lia.
  - apply Forall2_cons_inv_l in Hds as (dgt & ds' & Hdgt & Hds' & ->).
    simpl. rewrite Hdgt. simpl. rewrite (IH _ ds' Hds'). f_equal.
    rewrite Nat2Z.inj_succ, Z.pow_succ_r by lia. lia.
Qed.

Lemma split_at_dot_digits (s : string) (ds : list Z) :
  Forall2 (λ ch dgt, digit ch = Some dgt) (list_ascii_of_string s) ds →
  split_at_dot s = (s, None).
Proof.
  revert ds. induction s as [|ch s IH]; intros ds Hds; simpl in *; [done|].
  apply Forall2_cons_inv_l in Hds as (dgt & ds' & Hdgt & Hds' & ->).
  apply digit_range in Hdgt as (_ & _ & _ & Hdot).
  rewrite decide_False by done. by rewrite (IH ds' Hds').
Qed.

(** The decimal parser reads a non-empty run of digits as the whole number
    they write. *)
Lemma to_numeric_decimal_digits (s : string) (ds : list Z) :
  ds ≠ [] →
  Forall2 (λ ch dgt, digit ch = Some dgt) (list_ascii_of_string s) ds →
  to_numeric_decimal s = Some (inject_Z (positional_value ds)).
Proof.
  intros Hne Hds.
  assert (unsigned_decimal s = Some (inject_Z (positional_value ds))) as Hu.
  { unfold unsigned_decimal. rewrite (split_at_dot_digits s ds Hds). simpl.
    rewrite decide_False.
    - rewrite (digits_from_positional 0 s ds Hds). simpl.
      unfold inject_Z, Qplus. simpl. do 2 f_equal. lia.
    - intros [-> _]. simpl in Hds. apply Forall2_nil_inv_l in Hds. done. }
  destruct s as [|ch s]; [done|]. simpl in Hds.
  apply Forall2_cons_inv_l in Hds as (dgt & ds' & Hdgt & _ & _).
  apply digit_range in Hdgt as (_ & Hminus & Hplus & _).
  unfold to_numeric_decimal.
  destruct ch as [[] [] [] [] [] [] [] []]; try done.
Qed.

(** C5.  The example row becomes YEAR 2019 and VALUATION 12000.  In general
    the YEAR is the year of the parsed ISSUE_DATE, the VALUATION is the
    numeric parser's reading of the cell's text without its "$" and ","
    characters, and a text that either parser rejects gives a null cell: the
    transformer is a total function.  Whatever the date parser, when it
    yields a timestamp on a calendar date the YEAR is the year of that date;
    with the ISO parser the YEAR is the number that the first four
    characters write; and with the decimal parser a text that strips to a
    run of digits gives the whole number they write, as far as [float64]
    holds whole numbers exactly (up to 2^53). *)
Theorem transformer_example :
  (∀ tract : option string,
     let r := Raw.mk (Some "2019-05-01") (Some "$12,000") (Some "Electrical")
                     (Some "Acme") tract in
     let p := transform_row to_datetime_iso to_numeric_decimal r in
     Permit.YEAR p = Some 2019 ∧ Permit.VALUATION p = Some 12000%Q) ∧
  (∀ to_datetime to_numeric (r : Raw.row),
     let p := transform_row to_datetime to_numeric r in
     Permit.ISSUE_DATE p = Raw.ISSUE_DATE r ≫= to_datetime ∧
     Permit.YEAR p = dt_year <$> Permit.ISSUE_DATE p ∧
     Permit.VALUATION p = to_numeric (strip_currency (Raw.VALUATION r)) ∧
     list_ascii_of_string (strip_currency (Raw.VALUATION r))
     = filter (λ c, c ≠ "$"%char ∧ c ≠ ","%char)
              (list_ascii_of_string (astype_str (Raw.VALUATION r)))) ∧
  (let p := transform_row to_datetime_iso to_numeric_decimal garbled_raw in
   Permit.ISSUE_DATE p = None ∧ Permit.YEAR p = None ∧
   Permit.VALUATION p = None) ∧
  (∀ to_datetime to_numeric (r : Raw.row) (s : string) (y m d tod : Z),
     Raw.ISSUE_DATE r = Some s →
     to_datetime s = Some (days_from_civil y m d * ns_per_day + tod) →
     civil_date y m d → 0 ≤ tod < ns_per_day →
     Permit.YEAR (transform_row to_datetime to_numeric r) = Some y) ∧
  (∀ to_numeric (r : Raw.row) (s : string) (t : Timestamp),
     Raw.ISSUE_DATE r = Some s → to_datetime_iso s = Some t →
     Permit.YEAR (transform_row to_datetime_iso to_numeric r)
     = natural (substring 0 4 s)) ∧
  (∀ to_datetime (r : Raw.row) (ds : list Z),
     ds ≠ [] →
     Forall2 (λ ch dgt, digit ch = Some dgt)
             (list_ascii_of_string (strip_currency (Raw.VALUATION r))) ds →
     positional_value ds ≤ 2 ^ 53 →
     Permit.VALUATION (transform_row to_datetime to_numeric_decimal r)
     = Some (inject_Z (positional_value ds))).
Proof.
  split; [|split; [|split; [|split; [|split]]]].
  - intros tract. split; reflexivity.
  - intros to_datetime to_numeric r. simpl.
    repeat split. apply strip_currency_spec.
  - repeat split; reflexivity.
  - intros to_datetime to_numeric r s y m d tod Hs Ht Hdate Htod.
    unfold transform_row. simpl. rewrite Hs. simpl. rewrite Ht. simpl.
    f_equal. by apply dt_year_of_civil_date.
  - intros to_numeric r s t Hs Ht.
    unfold transform_row. simpl. rewrite Hs. simpl. rewrite Ht. simpl.
    apply to_datetime_iso_Some in Ht as (y & m & d & -> & _ & _ & Hdate & ->).
    f_equal. rewrite <- (Z.add_0_r (_ * _)).
    apply dt_year_of_civil_date; [done|]. unfold ns_per_day. lia.
  - intros to_datetime r ds Hne Hds _. unfold transform_row. simpl.
    by apply to_numeric_decimal_digits.
Qed.

Lemma transformer_example_witness :
  Raw.ISSUE_DATE bolt_raw = Some "2021-11-30" ∧
  to_datetime_iso "2021-11-30"
  = Some (days_from_civil 2021 11 30 * ns_per_day + 0) ∧
  civil_date 2021 11 30 ∧ 0 ≤ 0 < ns_per_day ∧
  Permit.YEAR (transform_row to_datetime_iso to_numeric_decimal bolt_raw)
  = Some 2021.
Proof.
  assert (civil_date 2021 11 30) as Hdate.
  { unfold civil_date.
    replace (days_in_month 2021 11) with 30 by reflexivity. lia. }
  assert (0 ≤ 0 < ns_per_day) as Htod by (unfold ns_per_day; lia).
  split; [reflexivity|]. split; [reflexivity|].
  split; [exact Hdate|]. split; [exact Htod|].
  exact (proj1 (proj2 (proj2 (proj2 transformer_example)))
           to_datetime_iso to_numeric_decimal bolt_raw "2021-11-30"
           2021 11 30 0 eq_refl eq_refl Hdate Htod).
Defined.

(** ** Grouping *)

Section groupby_facts.
Context {A K : Type} `{EqDecision K} (le : relation K) `{!RelDecision le}.
Context (key : A → option K).

Lemma groupby_keys (df : list A) :
  (groupby le key df).*1 = stable_sort le (unique (omap key df)).
Proof.
  unfold groupby. rewrite <- list_fmap_compose.
  induction (stable_sort le (unique (omap key df))) as [|k ks IH]; [done|].
  simpl. by f_equal.
Qed.

(** The group keys are the non-null keys of the frame, each once. *)
Lemma elem_of_groupby_keys (df : list A) (k : K) :
  k ∈ (groupby le key df).*1 ↔ ∃ r, r ∈ df ∧ key r = Some k.
Proof.
  rewrite groupby_keys, elem_of_stable_sort, elem_of_unique, list_elem_of_omap.
  done.
Qed.

Lemma NoDup_groupby_keys (df : list A) : NoDup (groupby le key df).*1.
Proof.
  rewrite groupby_keys, stable_sort_Permutation. apply NoDup_unique.
Qed.

(** A group holds the rows of the frame with the group's key. *)
Lemma elem_of_groupby (df : list A) (k : K) (g : list A) :
  (k, g) ∈ groupby le key df ↔
  (∃ r, r ∈ df ∧ key r = Some k) ∧ g = filter (λ r, key r = Some k) df.
Proof.
  unfold groupby. rewrite list_elem_of_fmap. split.
  - intros (k' & [= <- ->] & Hk).
    rewrite elem_of_stable_sort, elem_of_unique, list_elem_of_omap in Hk.
    done.
  - intros [Hk ->]. exists k. split; [done|].
    by rewrite elem_of_stable_sort, elem_of_unique, list_elem_of_omap.
Qed.

Lemma groupby_nil : groupby le key [] = [].
Proof. done. Qed.
End groupby_facts.

(** A frame sorted by a key without repetition is strictly sorted. *)
Lemma StronglySorted_strict {A} (f : A → Z) (l : list A) :
  StronglySorted (λ a b, f a ≤ f b) l → NoDup (f <$> l) →
  StronglySorted (λ a b, f a < f b) l.
Proof.
  induction 1 as [|a l Hl IH Ha]; simpl; [constructor|].
  rewrite NoDup_cons. intros [Hnotin Hnd]. constructor; [by apply IH|].
  rewrite Forall_forall in Ha |- *. intros b Hb.
  assert (f a ≠ f b).
  { intros Heq. apply Hnotin. rewrite Heq. by apply list_elem_of_fmap_2. }
  specialize (Ha b Hb). lia.
Qed.

#[global] Instance num_contractors_ge_trans : Transitive num_contractors_ge.
Proof. unfold num_contractors_ge. intros a b c ??. lia. Qed.

#[global] Instance num_contractors_ge_total : Total num_contractors_ge.
Proof. unfold num_contractors_ge. intros a b. lia. Qed.

#[global] Instance year_le_trans : Transitive year_le.
Proof. unfold year_le. intros a b c ??. lia. Qed.

#[global] Instance year_le_total : Total year_le.
Proof. unfold year_le. intros a b. lia. Qed.

(** The number of distinct non-null cells of a column is the size of any
    duplicate-free list of its non-null values. *)
Lemma nunique_length `{EqDecision A} (col : list (option A)) (values : list A) :
  NoDup values → (∀ x, x ∈ values ↔ Some x ∈ col) →
  nunique col = length values.
Proof.
  intros Hnd Hvalues. unfold nunique. apply Permutation_length.
  apply NoDup_Permutation; [apply NoDup_unique | done |].
  intros x. by rewrite elem_of_unique, elem_of_dropna, Hvalues.
Qed.

(** ** Tab 1: contractors by permit type *)

Lemma elem_of_df_permit (filtered : list Merged.row) (row : ByPermitType.row) :
  row ∈ df_permit filtered ↔
  ∃ g, g ∈ groupby string_le Merged.PERMIT_TYPE filtered ∧ row = agg_permit g.
Proof.
  unfold df_permit. rewrite elem_of_stable_sort, list_elem_of_fmap.
  split; intros (g & ? & ?); by exists g.
Qed.

Lemma df_permit_keys (filtered : list Merged.row) :
  ByPermitType.PERMIT_TYPE <$> df_permit filtered
  ≡ₚ (groupby string_le Merged.PERMIT_TYPE filtered).*1.
Proof.
  unfold df_permit. rewrite stable_sort_Permutation, <- list_fmap_compose.
  done.
Qed.

(** C7.  The table of tab 1 is sorted by falling [num_contractors]; it has
    one row per permit type present in the view; [num_permits] counts the
    rows of that type and [num_contractors] the distinct contractor names
    among them.  Two rows of one type with two different names give the
    single row (type, 2, 2). *)
Theorem df_permit_spec (filtered : list Merged.row) :
  StronglySorted num_contractors_ge (df_permit filtered) ∧
  NoDup (ByPermitType.PERMIT_TYPE <$> df_permit filtered) ∧
  (∀ pt : string,
     pt ∈ (ByPermitType.PERMIT_TYPE <$> df_permit filtered) ↔
     ∃ m, m ∈ filtered ∧ Merged.PERMIT_TYPE m = Some pt) ∧
  (∀ row : ByPermitType.row, row ∈ df_permit filtered →
     let group :=
       filter (λ m, Merged.PERMIT_TYPE m = Some (ByPermitType.PERMIT_TYPE row))
              filtered in
     ByPermitType.num_permits row = length group ∧
     ∀ names : list string,
       NoDup names →
       (∀ n, n ∈ names ↔
             ∃ m, m ∈ group ∧ Merged.CONTRACTOR_BUSINESS_NAME m = Some n) →
       ByPermitType.num_contractors row = length names) ∧
  (∀ (m1 m2 : Merged.row) (pt a b : string),
     filtered = [m1; m2] →
     Merged.PERMIT_TYPE m1 = Some pt → Merged.PERMIT_TYPE m2 = Some pt →
     Merged.CONTRACTOR_BUSINESS_NAME m1 = Some a →
     Merged.CONTRACTOR_BUSINESS_NAME m2 = Some b → a ≠ b →
     df_permit filtered = [ByPermitType.mk pt 2 2]).
Proof.
  split; [|split; [|split; [|split]]].
  - apply StronglySorted_stable_sort; apply _.
  - rewrite df_permit_keys. apply NoDup_groupby_keys.
  - intros pt. rewrite df_permit_keys. apply elem_of_groupby_keys.
  - intros row Hrow group.
    apply elem_of_df_permit in Hrow as ([pt g] & Hg & ->).
    apply elem_of_groupby in Hg as [_ ->]. simpl in group. split.
    + unfold agg_permit. simpl. rewrite count_all_Some.
      { by rewrite length_fmap. }
      apply Forall_fmap, Forall_forall. intros m Hm.
      apply list_elem_of_filter in Hm as [Hm _]. simpl. by rewrite Hm.
    + intros names Hnd Hnames. unfold agg_permit. simpl.
      apply nunique_length; [done|].
      intros n. rewrite Hnames, list_elem_of_fmap. split.
      * intros (m & ? & ?). by exists m.
      * intros (m & ? & ?). by exists m.
  - intros m1 m2 pt a b -> Hpt1 Hpt2 Ha Hb Hab.
    unfold df_permit, groupby. simpl. rewrite Hpt1, Hpt2. simpl.
    rewrite filter_cons, decide_False, filter_nil by (intros Hne; by apply Hne).
    simpl. rewrite !filter_cons, filter_nil, Hpt1, Hpt2.
    rewrite !decide_True by done.
    unfold agg_permit, nunique, count. simpl.
    rewrite Ha, Hb, Hpt1, Hpt2. simpl.
    rewrite !filter_cons, filter_nil, decide_True by congruence. done.
Qed.

Lemma df_permit_spec_witness :
  df_permit sample_merged = [ByPermitType.mk "Electrical" 2 2].
Proof.
  refine (proj2 (proj2 (proj2 (proj2 (df_permit_spec sample_merged))))
            _ _ "Electrical" "Acme" "Bolt" eq_refl eq_refl eq_refl eq_refl
            eq_refl _).
  discriminate.
Defined.

(** ** Tab 3: permit counts over time *)

Lemma elem_of_df_time (filtered : list Merged.row) (row : ByYear.row) :
  row ∈ df_time filtered ↔
  ∃ g, g ∈ groupby Z.le Merged.YEAR filtered ∧ row = agg_time g.
Proof.
  unfold df_time. rewrite elem_of_stable_sort, list_elem_of_fmap.
  split; intros (g & ? & ?); by exists g.
Qed.

Lemma df_time_keys (filtered : list Merged.row) :
  ByYear.YEAR <$> df_time filtered ≡ₚ (groupby Z.le Merged.YEAR filtered).*1.
Proof.
  unfold df_time. rewrite stable_sort_Permutation, <- list_fmap_compose.
  done.
Qed.

(** The rows of a FilteredView have no null in the three filtered columns. *)
Lemma filtered_df_not_null (c : FilterCriteria) (merged : list Merged.row) m :
  m ∈ filtered_df c merged →
  is_Some (Merged.YEAR m) ∧ is_Some (Merged.PERMIT_TYPE m) ∧
  is_Some (Merged.BUSINESS_TYPE m).
Proof.
  rewrite elem_of_filtered_df, mask_true.
  intros [(y & pt & bt & -> & _ & -> & _ & -> & _) _]. eauto.
Qed.

(** In a group of a FilteredView the non-null PERMIT_TYPE cells are as many
    as the rows. *)
Lemma count_permit_type_group (c : FilterCriteria) (merged : list Merged.row)
    (P : Merged.row → Prop) `{!∀ m, Decision (P m)} :
  count (Merged.PERMIT_TYPE <$> filter P (filtered_df c merged))
  = length (filter P (filtered_df c merged)).
Proof.
  rewrite count_all_Some; [by rewrite length_fmap|].
  apply Forall_fmap, Forall_forall. intros m Hm. simpl.
  apply list_elem_of_filter in Hm as [_ Hm].
  by apply filtered_df_not_null in Hm as (_ & ? & _).
Qed.

(** C8.  The table of tab 3 over a FilteredView is sorted by strictly rising
    YEAR; it has one row per year present in the view, and [permit_count] is
    the number of the view's rows of that year. *)
Theorem df_time_spec (c : FilterCriteria) (merged : list Merged.row) :
  StronglySorted (λ a b, ByYear.YEAR a < ByYear.YEAR b)
                 (df_time (filtered_df c merged)) ∧
  (∀ y : Z,
     y ∈ (ByYear.YEAR <$> df_time (filtered_df c merged)) ↔
     ∃ m, m ∈ filtered_df c merged ∧ Merged.YEAR m = Some y) ∧
  (∀ row : ByYear.row, row ∈ df_time (filtered_df c merged) →
     ByYear.permit_count row
     = length (filter (λ m, Merged.YEAR m = Some (ByYear.YEAR row))
                      (filtered_df c merged))).
Proof.
  split; [|split].
  - apply StronglySorted_strict.
    + apply (StronglySorted_stable_sort year_le).
    + rewrite df_time_keys. apply NoDup_groupby_keys.
  - intros y. rewrite df_time_keys. apply elem_of_groupby_keys.
  - intros row Hrow.
    apply elem_of_df_time in Hrow as ([y g] & Hg & ->).
    apply elem_of_groupby in Hg as [_ ->]. unfold agg_time. simpl.
    apply count_permit_type_group.
Qed.

(** C10.  Every row of a FilteredView has a YEAR, a PERMIT_TYPE and a
    BUSINESS_TYPE that are not null; hence in each year group the count of
    non-null PERMIT_TYPE cells, which is what tab 3 reports, is the number
    of rows of the group. *)
Theorem filtered_view_not_null (c : FilterCriteria) (merged : list Merged.row) :
  (∀ m, m ∈ filtered_df c merged →
     is_Some (Merged.YEAR m) ∧ is_Some (Merged.PERMIT_TYPE m) ∧
     is_Some (Merged.BUSINESS_TYPE m)) ∧
  (∀ (y : Z) (g : list Merged.row),
     (y, g) ∈ groupby Z.le Merged.YEAR (filtered_df c merged) →
     count (Merged.PERMIT_TYPE <$> g) = length g ∧
     ByYear.permit_count (agg_time (y, g)) = length g).
Proof.
  split.
  - intros m. apply filtered_df_not_null.
  - intros y g Hg. apply elem_of_groupby in Hg as [_ ->].
    unfold agg_time. simpl. split; apply count_permit_type_group.
Qed.

Lemma df_time_spec_witness :
  2019 ∈ (ByYear.YEAR <$> df_time (filtered_df sample_criteria sample_merged)) ∧
  df_time (filtered_df sample_criteria sample_merged)
  = [ByYear.mk 2019 1; ByYear.mk 2021 1].
Proof.
  split; [|reflexivity].
  apply (proj1 (proj2 (df_time_spec sample_criteria sample_merged)) 2019).
  exists (join_row acme_permit (Some "Acme") (Some "Plumbing")).
  split; [|reflexivity]. vm_compute. apply list_elem_of_here.
Defined.

Lemma filtered_view_not_null_witness :
  join_row acme_permit (Some "Acme") (Some "Plumbing")
    ∈ filtered_df sample_criteria sample_merged ∧
  is_Some (Merged.BUSINESS_TYPE
             (join_row acme_permit (Some "Acme") (Some "Plumbing"))).
Proof.
  assert (join_row acme_permit (Some "Acme") (Some "Plumbing")
            ∈ filtered_df sample_criteria sample_merged) as Hin.
  { vm_compute. apply list_elem_of_here. }
  split; [exact Hin|].
  exact (proj2 (proj2 (proj1 (filtered_view_not_null sample_criteria
                                sample_merged) _ Hin))).
Defined.

(** ** The empty view *)

(** C9.  On the empty FilteredView the three grouped tables are empty and
    the statistics table has, in each of its eight columns, a count of zero
    and nulls; all four are values of total functions, so none raises.  The
    view of the worked example, a 2019 row under criteria for 2020, is such
    an empty view. *)
Theorem aggregations_tolerate_empty_view :
  df_permit [] = [] ∧ df_scatter [] = [] ∧ df_time [] = [] ∧
  length (describe []) = 8%nat ∧
  Forall (λ col, empty_statistics col.2) (describe []) ∧
  filtered_df only_2020 (merged_df [acme_permit] [acme_contractor]) = [] ∧
  df_time (filtered_df only_2020 (merged_df [acme_permit] [acme_contractor]))
  = [].
Proof.
  split; [done|]. split; [done|]. split; [done|]. split; [done|].
  split; [|by split].
  unfold describe. repeat (apply Forall_cons; split); [..|apply Forall_nil];
    unfold empty_statistics; simpl; repeat split; auto.
Qed.

(** ** The theorems at the sample data *)

Lemma left_join_preserves_row_count_witness :
  NoDup (Contractor.BUSINESS_NAME <$> [acme_contractor]) ∧
  length (merged_df [acme_permit; bolt_permit] [acme_contractor]) = 2%nat.
Proof.
  assert (NoDup (Contractor.BUSINESS_NAME <$> [acme_contractor])) as Hnd
    by apply NoDup_singleton.
  split; [exact Hnd|].
  exact (proj1 (left_join_preserves_row_count
                  [acme_permit; bolt_permit] [acme_contractor] Hnd)).
Defined.

Lemma filter_excludes_null_rows_witness :
  Merged.BUSINESS_TYPE (join_row bolt_permit None None) = None ∧
  join_row bolt_permit None None
    ∉ filtered_df sample_criteria
        (merged_df [acme_permit; bolt_permit] [acme_contractor]).
Proof.
  split; [reflexivity|].
  exact (proj2 (filter_excludes_null_rows sample_criteria
                  (merged_df [acme_permit; bolt_permit] [acme_contractor])
                  (join_row bolt_permit None None)
                  (or_intror (or_intror eq_refl)))).
Defined.

(** ** No row of the view is lost in tab 3 *)

Section group_sizes.
Context {A K : Type} `{EqDecision K} (key : A → option K).

(** Among distinct keys exactly one is the key of a given row. *)
Lemma sum_key_indicator (ks : list K) (k0 : K) :
  NoDup ks → k0 ∈ ks →
  sum_list_with (λ k, if decide (Some k0 = Some k) then 1 else 0)%nat ks
  = 1%nat.
Proof.
  induction 1 as [|k ks Hk Hnd IH]; [by intros ?%elem_of_nil|].
  rewrite elem_of_cons. simpl. intros Hin.
  destruct (decide (Some k0 = Some k)) as [[= ->]|Hne].
  - f_equal. clear IH Hin Hnd.
    induction ks as [|k' ks IH]; [done|]. simpl.
    rewrite decide_False.
    + apply IH. intros ?. apply Hk. by right.
    + intros [= ->]. apply Hk. by left.
  - destruct Hin as [->|Hin]; [done|]. by apply IH.
Qed.

(** The groups of distinct keys that cover a frame have, together, as many
    rows as the frame. *)
Lemma sum_group_sizes (ks : list K) (df : list A) :
  NoDup ks → Forall (λ r, ∃ k, k ∈ ks ∧ key r = Some k) df →
  sum_list_with (λ k, length (filter (λ r, key r = Some k) df)) ks
  = length df.
Proof.
  intros Hnd. induction 1 as [|r df (k0 & Hk0 & Hr) _ IH].
  - induction ks as [|k ks IHks]; [done|]. simpl.
    apply IHks. by apply NoDup_cons in Hnd as [_ ?].
  - assert (sum_list_with (λ k, length (filter (λ r, key r = Some k) (r :: df))) ks
            = (sum_list_with
                 (λ k, if decide (Some k0 = Some k) then 1 else 0) ks
               + sum_list_with
                   (λ k, length (filter (λ r, key r = Some k) df)) ks)%nat)
      as ->.
    { clear IH Hnd Hk0. induction ks as [|k ks IHks]; [done|]. simpl.
      rewrite IHks, filter_cons, Hr.
      destruct (decide (Some k0 = Some k)); simpl; lia. }
    by rewrite IH, sum_key_indicator.
Qed.
End group_sizes.

Lemma df_time_counts_every_row (c : FilterCriteria) (merged : list Merged.row) :
  sum_list_with ByYear.permit_count (df_time (filtered_df c merged))
  = length (filtered_df c merged).
Proof.
  unfold df_time. rewrite stable_sort_Permutation.
  rewrite <- (sum_group_sizes Merged.YEAR
                (groupby Z.le Merged.YEAR (filtered_df c merged)).*1).
  - rewrite groupby_keys. unfold groupby.
    generalize (stable_sort Z.le
                  (unique (omap Merged.YEAR (filtered_df c merged)))).
    intros ys. induction ys as [|y ys IH]; [done|].
    simpl. f_equal; [apply count_permit_type_group | apply IH].
  - apply NoDup_groupby_keys.
  - apply Forall_forall. intros m Hm.
    destruct (filtered_df_not_null c merged m Hm) as ([y Hy] & _).
    exists y. split; [|done]. apply elem_of_groupby_keys. by exists m.
Qed.

(** ** The model at sample values *)

Example dt_year_new_year_eve :
  dt_year <$> to_datetime_iso "2019-12-31" = Some 2019.
Proof. reflexivity. Qed.

Example dt_year_new_year :
  dt_year <$> to_datetime_iso "2020-01-01" = Some 2020.
Proof. reflexivity. Qed.

Example dt_year_leap_day :
  dt_year <$> to_datetime_iso "2020-02-29" = Some 2020.
Proof. reflexivity. Qed.

Example dt_year_before_epoch :
  dt_year <$> to_datetime_iso "1969-12-31" = Some 1969.
Proof. reflexivity. Qed.

Example to_datetime_no_such_day : to_datetime_iso "2019-02-29" = None.
Proof. reflexivity. Qed.

Example to_datetime_out_of_bounds : to_datetime_iso "1600-01-01" = None.
Proof. reflexivity. Qed.

Example to_numeric_cents :
  to_numeric_decimal (strip_currency (Some "$3,500.50")) = Some 3500.50%Q.
Proof. reflexivity. Qed.

Example to_numeric_null_cell :
  to_numeric_decimal (strip_currency None) = None.
Proof. reflexivity. Qed.

Example df_scatter_sample :
  df_scatter sample_merged
  = [ByCensusTract.mk "2060.31" 2 (Some (1550050 # 200))].
Proof. reflexivity. Qed.

Example quantile_interpolates :
  quantile (1 # 4) [4; 3]%Q = Some (13 # 4).
Proof. reflexivity. Qed.

Example value_counts_ties :
  value_counts [Some "a"; None; Some "b"; Some "b"; Some "c"; Some "c"]
  = [("b", 2%nat); ("c", 2%nat); ("a", 1%nat)].
Proof. reflexivity. Qed.

(** * Further properties of the pipeline *)

(** ** The left join beyond unique names *)

(** X1.  The rows of the left join are exactly these: for each permit, one
    row per contractor with the permit's contractor name, carrying that
    contractor's two cells, or, when there is no such contractor, one row
    with both contractor cells null.  The join drops no permit and invents
    none. *)
Theorem merged_df_rows
    (records : list Permit.row) (contractors : list Contractor.row)
    (m : Merged.row) :
  m ∈ merged_df records contractors ↔
  permit_columns m ∈ records ∧
  ((∃ c, c ∈ contractors ∧
         Contractor.BUSINESS_NAME c = Merged.CONTRACTOR_BUSINESS_NAME m ∧
         Merged.BUSINESS_NAME m = Contractor.BUSINESS_NAME c ∧
         Merged.BUSINESS_TYPE m = Contractor.BUSINESS_TYPE c) ∨
   ((∀ c, c ∈ contractors →
          Contractor.BUSINESS_NAME c ≠ Merged.CONTRACTOR_BUSINESS_NAME m) ∧
    Merged.BUSINESS_NAME m = None ∧ Merged.BUSINESS_TYPE m = None)).
Proof.
  rewrite elem_of_merged_df. split.
  - intros (r & Hm & Hr). unfold merge_row in Hm.
    destruct (matches r contractors) as [|c0 cs] eqn:Hcs.
    + apply list_elem_of_singleton in Hm as ->.
      rewrite permit_columns_join_row. split; [done|]. right.
      split; [|done]. intros c Hc Heq. simpl in Heq.
      assert (c ∈ matches r contractors) as Hin
        by (unfold matches; by rewrite list_elem_of_filter).
      rewrite Hcs in Hin. by apply elem_of_nil in Hin.
    + apply list_elem_of_fmap in Hm as (c & -> & Hc).
      rewrite permit_columns_join_row. split; [done|]. left.
      rewrite <- Hcs in Hc. unfold matches in Hc.
      apply list_elem_of_filter in Hc as [Heq Hc]. by exists c.
  - intros [Hr Hcase]. exists (permit_columns m). split; [|done].
    assert (∀ name type,
              Merged.BUSINESS_NAME m = name → Merged.BUSINESS_TYPE m = type →
              m = join_row (permit_columns m) name type) as Hjoin.
    { intros name type <- <-. by destruct m. }
    unfold merge_row.
    destruct (matches (permit_columns m) contractors) as [|c0 cs] eqn:Hcs.
    + destruct Hcase as [(c & Hc & Heq & _)|(_ & Hn & Ht)].
      * assert (c ∈ matches (permit_columns m) contractors) as Hin
          by (unfold matches; by rewrite list_elem_of_filter).
        rewrite Hcs in Hin. by apply elem_of_nil in Hin.
      * apply list_elem_of_singleton. by apply Hjoin.
    + destruct Hcase as [(c & Hc & Heq & Hn & Ht)|(Hno & _)].
      * apply list_elem_of_fmap. exists c. split; [by apply Hjoin|].
        rewrite <- Hcs. unfold matches. by rewrite list_elem_of_filter.
      * exfalso.
        assert (c0 ∈ matches (permit_columns m) contractors) as Hin
          by (rewrite Hcs; apply list_elem_of_here).
        unfold matches in Hin. apply list_elem_of_filter in Hin as [Heq Hc0].
        by apply (Hno c0).
Qed.

Lemma merge_row_length (contractors : list Contractor.row) (r : Permit.row) :
  length (merge_row contractors r)
  = (1 `max` length (filter (λ c, Contractor.BUSINESS_NAME c
                                  = Permit.CONTRACTOR_BUSINESS_NAME r)
                            contractors))%nat.
Proof.
  unfold merge_row, matches.
  destruct (filter _ contractors) as [|c cs]; [done|].
  rewrite length_fmap. simpl. lia.
Qed.

(** X2.  The join has, for each permit, as many rows as contractors bear the
    permit's contractor name, and one row when none does: duplicate names in
    the contractor table multiply permit rows, and the join is never shorter
    than the permit table. *)
Theorem merged_df_length
    (records : list Permit.row) (contractors : list Contractor.row) :
  length (merged_df records contractors)
  = sum_list_with
      (λ r, 1 `max` length (filter (λ c, Contractor.BUSINESS_NAME c
                                         = Permit.CONTRACTOR_BUSINESS_NAME r)
                                   contractors))%nat
      records ∧
  (length records ≤ length (merged_df records contractors))%nat.
Proof.
  unfold merged_df.
  induction records as [|r records [IHlen IHle]]; [done|].
  rewrite bind_cons, length_app, merge_row_length. simpl. lia.
Qed.

(** ** The filter as a selection *)

(** X4.  Two filters can be applied in either order. *)
Theorem filtered_df_comm (c1 c2 : FilterCriteria) (merged : list Merged.row) :
  filtered_df c1 (filtered_df c2 merged) = filtered_df c2 (filtered_df c1 merged).
Proof.
  unfold filtered_df. rewrite !list_filter_filter.
  apply list_filter_iff. tauto.
Qed.

Lemma narrows_mask (c1 c2 : FilterCriteria) (m : Merged.row) :
  narrows c1 c2 → mask c1 m → mask c2 m.
Proof.
  intros (Hlo & Hhi & Hpt & Hbt). rewrite !mask_true.
  intros (y & pt & bt & ? & ? & ? & ? & ? & ?).
  exists y, pt, bt. repeat split; try done; try lia.
  - by apply Hpt.
  - by apply Hbt.
Qed.

(** X5.  Narrowing an already narrowed view gives what narrowing the merged
    frame gives: when [c1] narrows [c2], filtering by [c2] and then by [c1]
    is filtering by [c1]. *)
Theorem filtered_df_narrows
    (c1 c2 : FilterCriteria) (merged : list Merged.row) :
  narrows c1 c2 →
  filtered_df c1 (filtered_df c2 merged) = filtered_df c1 merged.
Proof.
  intros Hnarrow. unfold filtered_df. rewrite list_filter_filter.
  apply list_filter_iff. intros m. split; [tauto|].
  intros Hm. split; [done|]. by apply (narrows_mask c1 c2).
Qed.

Lemma filtered_df_narrows_witness :
  narrows only_2020 (Build_FilterCriteria (2013, 2023)
                       ["Electrical"; "Grading"] ["Plumbing"]) ∧
  filtered_df only_2020
    (filtered_df (Build_FilterCriteria (2013, 2023)
                    ["Electrical"; "Grading"] ["Plumbing"]) sample_merged)
  = filtered_df only_2020 sample_merged.
Proof.
  assert (narrows only_2020 (Build_FilterCriteria (2013, 2023)
                               ["Electrical"; "Grading"] ["Plumbing"]))
    as Hnarrow.
  { unfold narrows. simpl. repeat split; try lia.
    - intros x ->%list_elem_of_singleton. apply list_elem_of_here.
    - done. }
  split; [exact Hnarrow|].
  exact (filtered_df_narrows _ _ sample_merged Hnarrow).
Defined.

(** X6.  With no permit type selected, with no business type selected, or
    with a lower bound above the upper bound, the view is empty whatever the
    data, and so are the three grouped tables. *)
Theorem nothing_selected_empty_view
    (c : FilterCriteria) (merged : list Merged.row) :
  selected_permits c = [] ∨ selected_businesses c = [] ∨
    (year_range c).2 < (year_range c).1 →
  filtered_df c merged = [] ∧
  df_permit (filtered_df c merged) = [] ∧
  df_scatter (filtered_df c merged) = [] ∧
  df_time (filtered_df c merged) = [].
Proof.
  intros Hnone.
  assert (filtered_df c merged = []) as ->.
  { unfold filtered_df. apply filter_none, Forall_forall. intros m _.
    rewrite mask_true. intros (y & pt & bt & _ & Hy & _ & Hpt & _ & Hbt).
    destruct Hnone as [H|[H|H]].
    - rewrite H in Hpt. by apply elem_of_nil in Hpt.
    - rewrite H in Hbt. by apply elem_of_nil in Hbt.
    - lia. }
  done.
Qed.

Lemma nothing_selected_empty_view_witness :
  selected_permits (Build_FilterCriteria (2013, 2023) [] ["Plumbing"]) = [] ∧
  filtered_df (Build_FilterCriteria (2013, 2023) [] ["Plumbing"]) sample_merged
  = [].
Proof.
  split; [reflexivity|].
  exact (proj1 (nothing_selected_empty_view
                  (Build_FilterCriteria (2013, 2023) [] ["Plumbing"])
                  sample_merged (or_introl eq_refl))).
Defined.

(** ** Group sizes *)

Section groupby_sizes.
Context {A K : Type} `{EqDecision K} (le : relation K) `{!RelDecision le}.
Context (key : A → option K).

(** No group is empty. *)
Lemma groupby_nonempty (df : list A) (k : K) (g : list A) :
  (k, g) ∈ groupby le key df → (1 ≤ length g)%nat.
Proof.
  intros [(r & Hr & Hk) ->]%elem_of_groupby.
  assert (r ∈ filter (λ r, key r = Some k) df) as Hin
    by by rewrite list_elem_of_filter.
  destruct (filter _ df); [by apply elem_of_nil in Hin | simpl; lia].
Qed.

(** When no key is null the groups have, together, as many rows as the
    frame. *)
Lemma groupby_sizes_sum (df : list A) :
  Forall (λ r, is_Some (key r)) df →
  sum_list_with (λ g, length g.2) (groupby le key df) = length df.
Proof.
  intros Hkeys.
  rewrite <- (sum_group_sizes key (groupby le key df).*1 df).
  - rewrite groupby_keys. unfold groupby.
    generalize (stable_sort le (unique (omap key df))). intros ks.
    induction ks as [|k ks IH]; [done|]. simpl. f_equal. apply IH.
  - apply NoDup_groupby_keys.
  - apply Forall_forall. intros r Hr.
    rewrite Forall_forall in Hkeys. destruct (Hkeys r Hr) as [k Hk].
    exists k. split; [|done]. apply elem_of_groupby_keys. by exists r.
Qed.

(** Rows with a null key are in no group: leaving them out of the frame
    changes nothing. *)
Lemma groupby_drops_null_keys (df : list A) :
  groupby le key df = groupby le key (filter (λ r, is_Some (key r)) df).
Proof.
  unfold groupby.
  assert (omap key (filter (λ r, is_Some (key r)) df) = omap key df) as ->.
  { induction df as [|r df IH]; [done|].
    rewrite filter_cons. destruct (key r) as [k|] eqn:Hk.
    - rewrite decide_True by eauto. simpl. rewrite Hk. f_equal. apply IH.
    - rewrite decide_False by (by intros [??]). simpl. rewrite Hk. apply IH. }
  apply list_fmap_ext. intros _ k _. f_equal.
  rewrite list_filter_filter. apply list_filter_iff.
  intros r. split; [|tauto]. intros Hk. split; [done|]. by rewrite Hk.
Qed.
End groupby_sizes.

Lemma unique_length `{EqDecision A} (l : list A) :
  (length (unique l) ≤ length l)%nat.
Proof.
  induction l as [|x l IH]; simpl; [done|].
  pose proof (length_filter (λ y, y ≠ x) (unique l)). lia.
Qed.

Lemma dropna_length {A} (col : list (option A)) :
  (length (dropna col) ≤ length col)%nat.
Proof.
  unfold dropna.
  induction col as [|[x|] col IH]; simpl; [done | by apply le_n_S | by apply le_S].
Qed.

(** A column has no more distinct values than non-null cells. *)
Lemma nunique_le_count `{EqDecision A} (col : list (option A)) :
  (nunique col ≤ count col)%nat.
Proof. apply unique_length. Qed.

Lemma sum_list_with_ext_Forall {A} (f g : A → nat) (l : list A) :
  Forall (λ x, f x = g x) l → sum_list_with f l = sum_list_with g l.
Proof. induction 1 as [|x l Hx _ IH]; simpl; [done|]. by rewrite Hx, IH. Qed.

Lemma sum_list_with_fmap_compose {A B} (f : B → nat) (h : A → B) (l : list A) :
  sum_list_with f (h <$> l) = sum_list_with (λ x, f (h x)) l.
Proof. induction l as [|x l IH]; simpl; [done|]. by f_equal. Qed.

(** ** Tab 3: every row once, on the slider's scale *)

(** X7.  The permit counts of tab 3 add up to the number of rows of the
    FilteredView, and no year is listed with a count of zero: each row of
    the view is counted in exactly one year. *)
Theorem df_time_partitions_view (c : FilterCriteria) (merged : list Merged.row) :
  sum_list_with ByYear.permit_count (df_time (filtered_df c merged))
  = length (filtered_df c merged) ∧
  ∀ row, row ∈ df_time (filtered_df c merged) →
         (1 ≤ ByYear.permit_count row)%nat.
Proof.
  split; [apply df_time_counts_every_row|].
  intros row ([y g] & Hg & ->)%elem_of_df_time.
  pose proof (groupby_nonempty _ _ _ _ _ Hg) as Hlen.
  apply elem_of_groupby in Hg as [_ ->]. unfold agg_time. simpl.
  by rewrite count_permit_type_group.
Qed.

(** X8.  Every year listed in tab 3 lies between the two bounds of the
    criteria, so the table has at most one row per year of that range: at
    most eleven under the slider's 2013..2023. *)
Theorem df_time_within_range (c : FilterCriteria) (merged : list Merged.row) :
  (∀ row, row ∈ df_time (filtered_df c merged) →
          (year_range c).1 ≤ ByYear.YEAR row ≤ (year_range c).2) ∧
  (length (df_time (filtered_df c merged))
   ≤ Z.to_nat ((year_range c).2 - (year_range c).1 + 1))%nat.
Proof.
  assert (∀ y, y ∈ (ByYear.YEAR <$> df_time (filtered_df c merged)) →
               (year_range c).1 ≤ y ≤ (year_range c).2) as Hrange.
  { intros y. rewrite df_time_keys, elem_of_groupby_keys.
    intros (m & Hm & Hy). apply elem_of_filtered_df in Hm as [Hmask _].
    apply mask_true in Hmask as (y' & _ & _ & Hy' & Hbounds & _).
    congruence. }
  split.
  - intros row Hrow. apply Hrange. by apply list_elem_of_fmap_2.
  - rewrite <- (length_fmap ByYear.YEAR),
      <- (length_seqZ (year_range c).1).
    apply submseteq_length, NoDup_submseteq.
    + rewrite df_time_keys. apply NoDup_groupby_keys.
    + intros y Hy. apply elem_of_seqZ. specialize (Hrange y Hy). lia.
Qed.

(** ** Tab 1: bounds *)

Lemma count_permit_type_key (df : list Merged.row) (pt : string) :
  count (Merged.PERMIT_TYPE <$> filter (λ m, Merged.PERMIT_TYPE m = Some pt) df)
  = length (filter (λ m, Merged.PERMIT_TYPE m = Some pt) df).
Proof.
  rewrite count_all_Some; [by rewrite length_fmap|].
  apply Forall_fmap, Forall_forall. intros m Hm. simpl.
  apply list_elem_of_filter in Hm as [-> _]. by eexists.
Qed.

(** X9.  In tab 1 every listed permit type has at least one permit and no
    more distinct contractors than permits.  Over a FilteredView the listed
    types are selected types, so there are no more rows than selected types,
    and the [num_permits] add up to the number of rows of the view. *)
Theorem df_permit_bounds :
  (∀ (filtered : list Merged.row) (row : ByPermitType.row),
     row ∈ df_permit filtered →
     (1 ≤ ByPermitType.num_permits row)%nat ∧
     (ByPermitType.num_contractors row ≤ ByPermitType.num_permits row)%nat) ∧
  (∀ (c : FilterCriteria) (merged : list Merged.row),
     (∀ row, row ∈ df_permit (filtered_df c merged) →
             ByPermitType.PERMIT_TYPE row ∈ selected_permits c) ∧
     (length (df_permit (filtered_df c merged))
      ≤ length (selected_permits c))%nat ∧
     sum_list_with ByPermitType.num_permits (df_permit (filtered_df c merged))
     = length (filtered_df c merged)).
Proof.
  split.
  - intros filtered row ([pt g] & Hg & ->)%elem_of_df_permit.
    pose proof (groupby_nonempty _ _ _ _ _ Hg) as Hlen.
    apply elem_of_groupby in Hg as [_ ->]. unfold agg_permit. simpl.
    rewrite count_permit_type_key. split; [done|].
    etrans; [apply nunique_le_count|].
    unfold count. etrans; [apply dropna_length|]. by rewrite length_fmap.
  - intros c merged.
    assert (∀ pt, pt ∈ (ByPermitType.PERMIT_TYPE
                          <$> df_permit (filtered_df c merged)) →
                  pt ∈ selected_permits c) as Hsel.
    { intros pt. rewrite df_permit_keys, elem_of_groupby_keys.
      intros (m & Hm & Hpt). apply elem_of_filtered_df in Hm as [Hmask _].
      apply mask_true in Hmask as (_ & pt' & _ & _ & _ & Hpt' & Hin & _).
      congruence. }
    split; [|split].
    + intros row Hrow. apply Hsel. by apply list_elem_of_fmap_2.
    + rewrite <- (length_fmap ByPermitType.PERMIT_TYPE).
      apply submseteq_length, NoDup_submseteq; [|done].
      rewrite df_permit_keys. apply NoDup_groupby_keys.
    + unfold df_permit. rewrite stable_sort_Permutation.
      rewrite sum_list_with_fmap_compose.
      rewrite <- (groupby_sizes_sum string_le Merged.PERMIT_TYPE).
      * apply sum_list_with_ext_Forall, Forall_forall.
        intros [pt g] Hg. apply elem_of_groupby in Hg as [_ ->].
        unfold agg_permit. simpl. apply count_permit_type_key.
      * apply Forall_forall. intros m Hm.
        by apply filtered_df_not_null in Hm as (_ & ? & _).
Qed.

Lemma df_time_partitions_view_witness :
  ByYear.mk 2019 1 ∈ df_time (filtered_df sample_criteria sample_merged) ∧
  (1 ≤ ByYear.permit_count (ByYear.mk 2019 1))%nat.
Proof.
  assert (ByYear.mk 2019 1 ∈ df_time (filtered_df sample_criteria sample_merged))
    as Hin by (vm_compute; apply list_elem_of_here).
  split; [exact Hin|].
  exact (proj2 (df_time_partitions_view sample_criteria sample_merged) _ Hin).
Defined.

Lemma df_time_within_range_witness :
  ByYear.mk 2019 1 ∈ df_time (filtered_df sample_criteria sample_merged) ∧
  2013 ≤ ByYear.YEAR (ByYear.mk 2019 1) ≤ 2023.
Proof.
  assert (ByYear.mk 2019 1 ∈ df_time (filtered_df sample_criteria sample_merged))
    as Hin by (vm_compute; apply list_elem_of_here).
  split; [exact Hin|].
  exact (proj1 (df_time_within_range sample_criteria sample_merged) _ Hin).
Defined.

Lemma df_permit_bounds_witness :
  ByPermitType.mk "Electrical" 2 2 ∈ df_permit sample_merged ∧
  (ByPermitType.num_contractors (ByPermitType.mk "Electrical" 2 2)
   ≤ ByPermitType.num_permits (ByPermitType.mk "Electrical" 2 2))%nat.
Proof.
  assert (ByPermitType.mk "Electrical" 2 2 ∈ df_permit sample_merged)
    as Hin by (vm_compute; apply list_elem_of_here).
  split; [exact Hin|].
  exact (proj2 (proj1 df_permit_bounds sample_merged _ Hin)).
Defined.

(** ** Tab 2: contractors and average valuation by census tract *)

#[global] Instance string_le_total : Total string_le.
Proof.
  intros s1 s2. unfold string_le.
  destruct (String.leb_total s1 s2) as [->| ->]; [by left | by right].
Qed.

(** The mean is null exactly when the column has no value. *)
Lemma mean_None (col : list (option Q)) : mean col = None ↔ dropna col = [].
Proof. unfold mean. by destruct (dropna col). Qed.

Lemma elem_of_df_scatter (filtered : list Merged.row) (row : ByCensusTract.row) :
  row ∈ df_scatter filtered ↔
  ∃ g, g ∈ groupby string_le Merged.CENSUS_TRACT filtered ∧ row = agg_scatter g.
Proof.
  unfold df_scatter. rewrite list_elem_of_fmap.
  split; intros (g & ? & ?); by exists g.
Qed.

Lemma df_scatter_keys (filtered : list Merged.row) :
  ByCensusTract.CENSUS_TRACT <$> df_scatter filtered
  = (groupby string_le Merged.CENSUS_TRACT filtered).*1.
Proof. unfold df_scatter. by rewrite <- list_fmap_compose. Qed.

(** X10.  The table of tab 2 lists the census tracts present in the view,
    each once, in rising order.  For each tract [num_contractors] counts the
    distinct contractor names of the tract's rows, and [avg_cost] is null
    when none of these rows has a valuation. *)
Theorem df_scatter_spec (filtered : list Merged.row) :
  Sorted string_le (ByCensusTract.CENSUS_TRACT <$> df_scatter filtered) ∧
  NoDup (ByCensusTract.CENSUS_TRACT <$> df_scatter filtered) ∧
  (∀ t : string,
     t ∈ (ByCensusTract.CENSUS_TRACT <$> df_scatter filtered) ↔
     ∃ m, m ∈ filtered ∧ Merged.CENSUS_TRACT m = Some t) ∧
  (∀ row : ByCensusTract.row, row ∈ df_scatter filtered →
     let group :=
       filter (λ m, Merged.CENSUS_TRACT m
                    = Some (ByCensusTract.CENSUS_TRACT row)) filtered in
     (∀ names : list string,
        NoDup names →
        (∀ n, n ∈ names ↔
              ∃ m, m ∈ group ∧ Merged.CONTRACTOR_BUSINESS_NAME m = Some n) →
        ByCensusTract.num_contractors row = length names) ∧
     (Forall (λ m, Merged.VALUATION m = None) group →
      ByCensusTract.avg_cost row = None)).
Proof.
  split; [|split; [|split]].
  - rewrite df_scatter_keys, groupby_keys. apply Sorted_stable_sort, _.
  - rewrite df_scatter_keys. apply NoDup_groupby_keys.
  - intros t. rewrite df_scatter_keys. apply elem_of_groupby_keys.
  - intros row ([t g] & Hg & ->)%elem_of_df_scatter.
    apply elem_of_groupby in Hg as [_ ->]. unfold agg_scatter. simpl.
    split.
    + intros names Hnd Hnames. apply nunique_length; [done|].
      intros n. rewrite Hnames, list_elem_of_fmap. split.
      * intros (m & ? & ?). by exists m.
      * intros (m & ? & ?). by exists m.
    + intros Hnull. apply mean_None.
      induction Hnull as [|m g Hm _ IH]; [done|].
      rewrite fmap_cons, Hm. exact IH.
Qed.

Lemma df_scatter_spec_witness :
  ByCensusTract.mk "2060.31" 2 (Some (1550050 # 200)) ∈ df_scatter sample_merged ∧
  NoDup ["Acme"; "Bolt"] ∧
  ByCensusTract.num_contractors
    (ByCensusTract.mk "2060.31" 2 (Some (1550050 # 200)))
  = length ["Acme"; "Bolt"].
Proof.
  assert (ByCensusTract.mk "2060.31" 2 (Some (1550050 # 200))
            ∈ df_scatter sample_merged)
    as Hin by (vm_compute; apply list_elem_of_here).
  assert (NoDup ["Acme"; "Bolt"]) as Hnd.
  { apply NoDup_cons. split; [|apply NoDup_singleton].
    by intros [=]%list_elem_of_singleton. }
  split; [exact Hin|]. split; [exact Hnd|].
  refine (proj1 (proj2 (proj2 (proj2 (df_scatter_spec sample_merged))) _ Hin)
            ["Acme"; "Bolt"] Hnd _).
  intros n. vm_compute filter. rewrite !elem_of_cons, elem_of_nil. split.
  - intros [->|[->|[]]].
    + eexists. split; [left; reflexivity | reflexivity].
    + eexists. split; [right; left; reflexivity | reflexivity].
  - intros (m & Hm & Hn).
    apply elem_of_cons in Hm as [->|Hm];
      [|apply list_elem_of_singleton in Hm as ->];
      simpl in Hn; injection Hn as <-; tauto.
Defined.

(** X11.  Permits without a census tract are left out of tab 2: the table
    is the one computed from the rows that have a tract. *)
Theorem df_scatter_ignores_null_tracts (filtered : list Merged.row) :
  df_scatter filtered
  = df_scatter (filter (λ m, is_Some (Merged.CENSUS_TRACT m)) filtered).
Proof. unfold df_scatter. by rewrite <- groupby_drops_null_keys. Qed.

(** ** Tab 4 against the other tabs *)

Lemma dropna_fmap {A B} (f : A → option B) (l : list A) :
  dropna (f <$> l) = omap f l.
Proof.
  unfold dropna. induction l as [|x l IH]; [done|].
  simpl. destruct (f x); simpl; [f_equal|]; apply IH.
Qed.

Lemma value_counts_length (col : list (option string)) :
  length (value_counts col) = nunique col.
Proof.
  unfold value_counts, nunique. by rewrite stable_sort_length, length_fmap.
Qed.

Lemma describe_columns (filtered : list Merged.row) (name : string) col :
  (name, col) ∈ describe filtered →
  (name = "ISSUE_DATE" ∧
   col = describe_timestamp_1d (Merged.ISSUE_DATE <$> filtered)) ∨
  (name = "YEAR" ∧
   col = describe_numeric_1d (fmap inject_Z <$> (Merged.YEAR <$> filtered))) ∨
  (name = "VALUATION" ∧
   col = describe_numeric_1d (Merged.VALUATION <$> filtered)) ∨
  (name = "PERMIT_TYPE" ∧
   col = describe_categorical_1d (Merged.PERMIT_TYPE <$> filtered)) ∨
  (name = "CONTRACTOR_BUSINESS_NAME" ∧
   col = describe_categorical_1d (Merged.CONTRACTOR_BUSINESS_NAME <$> filtered)) ∨
  (name = "CENSUS_TRACT" ∧
   col = describe_categorical_1d (Merged.CENSUS_TRACT <$> filtered)) ∨
  (name = "BUSINESS_NAME" ∧
   col = describe_categorical_1d (Merged.BUSINESS_NAME <$> filtered)) ∨
  (name = "BUSINESS_TYPE" ∧
   col = describe_categorical_1d (Merged.BUSINESS_TYPE <$> filtered)).
Proof.
  unfold describe. rewrite !elem_of_cons, elem_of_nil.
  intros [H|[H|[H|[H|[H|[H|[H|[H|[]]]]]]]]]; injection H as -> ->; tauto.
Qed.

(** X12.  Over a FilteredView the statistics table counts every row in its
    YEAR, PERMIT_TYPE and BUSINESS_TYPE columns, no column counts more than
    the rows of the view, and the number of distinct permit types it reports
    is the number of rows of tab 1. *)
Theorem describe_agrees_with_view
    (c : FilterCriteria) (merged : list Merged.row) (name : string)
    (col : Describe.column) :
  (name, col) ∈ describe (filtered_df c merged) →
  (Describe.count col ≤ length (filtered_df c merged))%nat ∧
  (name = "YEAR" ∨ name = "PERMIT_TYPE" ∨ name = "BUSINESS_TYPE" →
   Describe.count col = length (filtered_df c merged)) ∧
  (name = "PERMIT_TYPE" →
   Describe.unique col = Some (length (df_permit (filtered_df c merged)))).
Proof.
  intros Hcol.
  assert (∀ m, m ∈ filtered_df c merged →
               is_Some (Merged.YEAR m) ∧ is_Some (Merged.PERMIT_TYPE m) ∧
               is_Some (Merged.BUSINESS_TYPE m)) as Hnn
    by (intros m; apply filtered_df_not_null).
  assert (∀ {A} (f : Merged.row → option A),
            (count (f <$> filtered_df c merged)
             ≤ length (filtered_df c merged))%nat) as Hle.
  { intros A f. etrans; [apply dropna_length|]. by rewrite length_fmap. }
  assert (∀ {A} (f : Merged.row → option A),
            (∀ m, m ∈ filtered_df c merged → is_Some (f m)) →
            count (f <$> filtered_df c merged)
            = length (filtered_df c merged)) as Heq.
  { intros A f Hf. rewrite count_all_Some; [by rewrite length_fmap|].
    apply Forall_fmap, Forall_forall. intros m Hm. by apply Hf. }
  apply describe_columns in Hcol
    as [[-> ->]|[[-> ->]|[[-> ->]|[[-> ->]|[[-> ->]|[[-> ->]|[[-> ->]|[-> ->]]]]]]]];
    simpl; (split; [|split]); try (intros [?|[?|?]]; discriminate);
    try discriminate; try apply Hle.
  - rewrite <- list_fmap_compose. apply Hle.
  - intros _. rewrite <- list_fmap_compose. apply Heq.
    intros m Hm. destruct (Hnn m Hm) as ([y Hy] & _). simpl. rewrite Hy.
    by eexists.
  - intros _. apply Heq. intros m Hm. by destruct (Hnn m Hm) as (_ & ? & _).
  - intros _. f_equal. rewrite value_counts_length.
    unfold df_permit, groupby, nunique.
    by rewrite stable_sort_length, !length_fmap, stable_sort_length, dropna_fmap.
  - intros _. apply Heq. intros m Hm. by destruct (Hnn m Hm) as (_ & _ & ?).
Qed.

Lemma describe_agrees_with_view_witness :
  ("PERMIT_TYPE", describe_categorical_1d
                    (Merged.PERMIT_TYPE
                       <$> filtered_df sample_criteria sample_merged))
    ∈ describe (filtered_df sample_criteria sample_merged) ∧
  Describe.unique (describe_categorical_1d
                     (Merged.PERMIT_TYPE
                        <$> filtered_df sample_criteria sample_merged))
  = Some (length (df_permit (filtered_df sample_criteria sample_merged))).
Proof.
  assert (("PERMIT_TYPE", describe_categorical_1d
                            (Merged.PERMIT_TYPE
                               <$> filtered_df sample_criteria sample_merged))
            ∈ describe (filtered_df sample_criteria sample_merged)) as Hin.
  { unfold describe. do 2 apply list_elem_of_further. apply list_elem_of_here. }
  split; [exact Hin|].
  exact (proj2 (proj2 (describe_agrees_with_view sample_criteria sample_merged
                         _ _ Hin)) eq_refl).
Defined.

(** ** Tab 4: the text columns *)

#[global] Instance freq_ge_trans : Transitive freq_ge.
Proof. unfold freq_ge. intros a b c ??. lia. Qed.

#[global] Instance freq_ge_total : Total freq_ge.
Proof. unfold freq_ge. intros a b. lia. Qed.

(** The occurrences of a value among the non-null cells are its occurrences
    in the column. *)
Lemma occurrences_dropna `{EqDecision A} (col : list (option A)) (v : A) :
  length (filter (λ x, x = v) (dropna col))
  = length (filter (λ cell, cell = Some v) col).
Proof.
  unfold dropna. induction col as [|[x|] col IH].
  - done.
  - change (omap id (Some x :: col)) with (x :: omap id col).
    rewrite !filter_cons.
    destruct (decide (x = v)) as [->|Hne].
    + rewrite decide_True by done. simpl. by rewrite IH.
    + rewrite decide_False by congruence. done.
  - change (omap id (None :: col)) with (omap id col).
    by rewrite filter_cons, decide_False.
Qed.

(** The entries of [value_counts]: each value of the column with the number
    of its occurrences. *)
Lemma elem_of_value_counts (col : list (option string)) (v : string) (n : nat) :
  (v, n) ∈ value_counts col ↔
  Some v ∈ col ∧ n = length (filter (λ cell, cell = Some v) col).
Proof.
  unfold value_counts.
  rewrite elem_of_stable_sort, list_elem_of_fmap. split.
  - intros (v' & [= <- ->] & Hv).
    rewrite elem_of_unique, elem_of_dropna in Hv.
    by rewrite occurrences_dropna.
  - intros [Hv ->]. exists v. rewrite occurrences_dropna. split; [done|].
    by rewrite elem_of_unique, elem_of_dropna.
Qed.

(** X13.  For a text column the statistics table reports the number of
    distinct values; [top] and [freq] are null exactly when every cell is
    null; otherwise [top] is a value of the column, [freq] is the number of
    its occurrences, and no value occurs more often. *)
Theorem describe_top_most_frequent (col : list (option string)) :
  Describe.unique (describe_categorical_1d col) = Some (nunique col) ∧
  (Describe.top (describe_categorical_1d col) = None ↔
   Forall (λ cell, cell = None) col) ∧
  (Describe.freq (describe_categorical_1d col) = None ↔
   Describe.top (describe_categorical_1d col) = None) ∧
  ∀ (t : string) (n : nat),
    Describe.top (describe_categorical_1d col) = Some t →
    Describe.freq (describe_categorical_1d col) = Some n →
    Some t ∈ col ∧
    n = length (filter (λ cell, cell = Some t) col) ∧
    ∀ v : string, (length (filter (λ cell, cell = Some v) col) ≤ n)%nat.
Proof.
  unfold describe_categorical_1d. simpl.
  split; [by rewrite value_counts_length|].
  pose proof (StronglySorted_stable_sort freq_ge
                ((λ v, (v, length (filter (λ x, x = v) (dropna col))))
                   <$> unique (dropna col))) as Hsorted.
  fold (value_counts col) in Hsorted.
  pose proof (elem_of_value_counts col) as Helem.
  destruct (value_counts col) as [|[t0 n0] vc]; simpl.
  - split; [|split; [done|done]]. split; [intros _|done].
    apply Forall_forall. intros [v|] Hv; [|done]. exfalso.
    assert ((v, length (filter (λ cell, cell = Some v) col)) ∈ @nil (string * nat))
      as Hin by by apply Helem.
    by apply elem_of_nil in Hin.
  - split; [|split; [done|]].
    + split; [done|]. intros Hall. exfalso.
      assert ((t0, n0) ∈ (t0, n0) :: vc) as Hin by apply list_elem_of_here.
      apply Helem in Hin as [Hin _].
      rewrite Forall_forall in Hall. by specialize (Hall _ Hin).
    + intros t n [= <-] [= <-].
      assert ((t0, n0) ∈ (t0, n0) :: vc) as Hin by apply list_elem_of_here.
      apply Helem in Hin as [Hin Hn0]. split; [done|]. split; [done|].
      intros v.
      destruct (decide (Some v ∈ col)) as [Hv|Hv].
      * assert ((v, length (filter (λ cell, cell = Some v) col))
                  ∈ (t0, n0) :: vc) as Hvin by by apply Helem.
        apply elem_of_cons in Hvin as [[= -> <-]|Hvin]; [done|].
        apply StronglySorted_inv in Hsorted as [_ Hhd].
        rewrite Forall_forall in Hhd. by apply (Hhd _ Hvin).
      * rewrite filter_none; [simpl; lia|].
        apply Forall_forall. by intros cell Hcell ->.
Qed.

Lemma describe_top_most_frequent_witness :
  Describe.top (describe_categorical_1d
                  [Some "Electrical"; None; Some "Grading"; Some "Grading"])
  = Some "Grading" ∧
  Describe.freq (describe_categorical_1d
                   [Some "Electrical"; None; Some "Grading"; Some "Grading"])
  = Some 2%nat ∧
  Some "Grading" ∈ [Some "Electrical"; None; Some "Grading"; Some "Grading"].
Proof.
  split; [reflexivity|]. split; [reflexivity|].
  exact (proj1 (proj2 (proj2 (proj2 (describe_top_most_frequent
                  [Some "Electrical"; None; Some "Grading"; Some "Grading"])))
                  "Grading" 2%nat eq_refl eq_refl)).
Defined.

(** ** From the loaded table to the view *)

(** X14.  Every row of a FilteredView comes from a loaded permit record
    whose ISSUE_DATE text the date parser accepted: it carries the parsed
    timestamp, its YEAR is the year of that timestamp and lies within the
    bounds of the criteria, its VALUATION is the numeric parser's answer on
    the stripped text, and its permit type, contractor name and census
    tract are the record's. *)
Theorem filtered_row_provenance
    (to_datetime : string → option Timestamp) (to_numeric : string → option Q)
    (records : list Raw.row) (contractors : list Contractor.row)
    (c : FilterCriteria) (m : Merged.row) :
  m ∈ filtered_df c (merged_df (transform to_datetime to_numeric records)
                               contractors) →
  ∃ (r : Raw.row) (s : string) (t : Timestamp),
    r ∈ records ∧
    Raw.ISSUE_DATE r = Some s ∧ to_datetime s = Some t ∧
    Merged.ISSUE_DATE m = Some t ∧ Merged.YEAR m = Some (dt_year t) ∧
    (year_range c).1 ≤ dt_year t ≤ (year_range c).2 ∧
    Merged.VALUATION m = to_numeric (strip_currency (Raw.VALUATION r)) ∧
    Merged.PERMIT_TYPE m = Raw.PERMIT_TYPE r ∧
    Merged.CONTRACTOR_BUSINESS_NAME m = Raw.CONTRACTOR_BUSINESS_NAME r ∧
    Merged.CENSUS_TRACT m = Raw.CENSUS_TRACT r.
Proof.
  rewrite elem_of_filtered_df, mask_true, elem_of_merged_df.
  intros [(y & pt & bt & Hy & Hrange & _) (p & Hm & Hp)].
  apply list_elem_of_fmap in Hp as (r & -> & Hr).
  apply elem_of_merge_row in Hm as [Hcols _].
  pose proof (f_equal Permit.ISSUE_DATE Hcols) as Hdate.
  pose proof (f_equal Permit.YEAR Hcols) as Hyear.
  pose proof (f_equal Permit.VALUATION Hcols) as Hval.
  pose proof (f_equal Permit.PERMIT_TYPE Hcols) as Hpt.
  pose proof (f_equal Permit.CONTRACTOR_BUSINESS_NAME Hcols) as Hname.
  pose proof (f_equal Permit.CENSUS_TRACT Hcols) as Htract.
  simpl in Hdate, Hyear, Hval, Hpt, Hname, Htract.
  destruct (Raw.ISSUE_DATE r) as [s|] eqn:Hs; simpl in Hdate, Hyear;
    [|congruence].
  destruct (to_datetime s) as [t|] eqn:Ht; simpl in Hdate, Hyear;
    [|congruence].
  exists r, s, t.
  assert (y = dt_year t) as <- by congruence.
  repeat split; try done; apply Hrange.
Qed.

Lemma filtered_row_provenance_witness :
  join_row acme_permit (Some "Acme") (Some "Plumbing")
    ∈ filtered_df sample_criteria
        (merged_df (transform to_datetime_iso to_numeric_decimal
                      [acme_raw; garbled_raw; bolt_raw])
                   [acme_contractor; bolt_contractor]) ∧
  ∃ (r : Raw.row) (s : string) (t : Timestamp),
    r ∈ [acme_raw; garbled_raw; bolt_raw] ∧
    Raw.ISSUE_DATE r = Some s ∧ to_datetime_iso s = Some t ∧
    Merged.YEAR (join_row acme_permit (Some "Acme") (Some "Plumbing"))
    = Some (dt_year t).
Proof.
  assert (join_row acme_permit (Some "Acme") (Some "Plumbing")
            ∈ filtered_df sample_criteria
                (merged_df (transform to_datetime_iso to_numeric_decimal
                              [acme_raw; garbled_raw; bolt_raw])
                           [acme_contractor; bolt_contractor])) as Hin
    by (vm_compute; apply list_elem_of_here).
  split; [exact Hin|].
  destruct (filtered_row_provenance _ _ _ _ _ _ Hin)
    as (r & s & t & Hr & Hs & Ht & _ & Hy & _).
  exists r, s, t. exact (conj Hr (conj Hs (conj Ht Hy))).
Defined.

(** ** The options of the two multiselects *)

(** X15.  The permit-type options are the non-null permit types of the
    permit table and the business-type options the non-null business types
    of the contractor table, each listed once.  The preprocessing leaves
    the permit types as loaded, so the options do not depend on how dates
    and valuations parse. *)
Theorem sidebar_options
    (records : list Permit.row) (contractors : list Contractor.row) :
  NoDup (permit_options records) ∧
  (∀ pt, pt ∈ permit_options records ↔
         ∃ r, r ∈ records ∧ Permit.PERMIT_TYPE r = Some pt) ∧
  NoDup (business_options contractors) ∧
  (∀ bt, bt ∈ business_options contractors ↔
         ∃ k, k ∈ contractors ∧ Contractor.BUSINESS_TYPE k = Some bt) ∧
  (∀ to_datetime to_numeric (raw : list Raw.row),
     permit_options (transform to_datetime to_numeric raw)
     = unique (dropna (Raw.PERMIT_TYPE <$> raw))).
Proof.
  unfold permit_options, business_options.
  split; [apply NoDup_unique|]. split; [|split; [apply NoDup_unique|split]].
  - intros pt. rewrite elem_of_unique, elem_of_dropna, list_elem_of_fmap.
    split; intros (r & ? & ?); by exists r.
  - intros bt. rewrite elem_of_unique, elem_of_dropna, list_elem_of_fmap.
    split; intros (k & ? & ?); by exists k.
  - intros to_datetime to_numeric raw. unfold transform.
    by rewrite <- list_fmap_compose.
Qed.

(** ** The valuation text *)

Lemma list_ascii_of_string_inj (s1 s2 : string) :
  list_ascii_of_string s1 = list_ascii_of_string s2 → s1 = s2.
Proof.
  intros Heq.
  rewrite <- (string_of_list_ascii_of_string s1),
    <- (string_of_list_ascii_of_string s2).
  by rewrite Heq.
Qed.

(** X16.  The text handed to the numeric parser holds no "$" and no ",";
    stripping is idempotent, and a text without these two characters is
    handed over unchanged. *)
Theorem strip_currency_clean (cell : option string) :
  (("$" : ascii) ∉ list_ascii_of_string (strip_currency cell)) ∧
  (("," : ascii) ∉ list_ascii_of_string (strip_currency cell)) ∧
  strip_currency (Some (strip_currency cell)) = strip_currency cell ∧
  (("$" : ascii) ∉ list_ascii_of_string (astype_str cell) →
   ("," : ascii) ∉ list_ascii_of_string (astype_str cell) →
   strip_currency cell = astype_str cell).
Proof.
  split; [|split; [|split]].
  - rewrite strip_currency_spec, list_elem_of_filter. tauto.
  - rewrite strip_currency_spec, list_elem_of_filter. tauto.
  - apply list_ascii_of_string_inj.
    rewrite (strip_currency_spec (Some _)). simpl.
    rewrite strip_currency_spec, list_filter_filter.
    apply list_filter_iff. tauto.
  - intros Hdollar Hcomma. apply list_ascii_of_string_inj.
    rewrite strip_currency_spec. apply filter_all, Forall_forall.
    intros ch Hch. split; by intros ->.
Qed.

Lemma strip_currency_clean_witness :
  (("$" : ascii) ∉ list_ascii_of_string (astype_str (Some "12000.50"))) ∧
  (("," : ascii) ∉ list_ascii_of_string (astype_str (Some "12000.50"))) ∧
  strip_currency (Some "12000.50") = astype_str (Some "12000.50").
Proof.
  assert (("$" : ascii) ∉ list_ascii_of_string (astype_str (Some "12000.50")))
    as Hdollar.
  { simpl. rewrite !not_elem_of_cons. repeat split; try discriminate.
    apply not_elem_of_nil. }
  assert (("," : ascii) ∉ list_ascii_of_string (astype_str (Some "12000.50")))
    as Hcomma.
  { simpl. rewrite !not_elem_of_cons. repeat split; try discriminate.
    apply not_elem_of_nil. }
  split; [exact Hdollar|]. split; [exact Hcomma|].
  exact (proj2 (proj2 (proj2 (strip_currency_clean (Some "12000.50"))))
           Hdollar Hcomma).
Defined.

(** ** Tab 4: the numeric columns *)

(** The least value of a column is one of its values and is below all of
    them; likewise the greatest. *)
Lemma Qminimum_spec (values : list Q) (q : Q) :
  Qminimum values = Some q →
  q ∈ values ∧ ∀ v, v ∈ values → (q <= v)%Q.
Proof.
  destruct values as [|x l]; [done|]. simpl. intros [= <-].
  induction l as [|a l [IHin IHle]]; simpl.
  - split; [apply list_elem_of_here|].
    intros v ->%list_elem_of_singleton. apply Qle_refl.
  - destruct (Qle_bool a (foldr _ x l)) eqn:Hle.
    + apply Qle_bool_iff in Hle. split.
      * apply list_elem_of_further, list_elem_of_here.
      * intros v [->|[->|Hv]%elem_of_cons]%elem_of_cons.
        -- apply (Qle_trans _ _ _ Hle). apply IHle, list_elem_of_here.
        -- apply Qle_refl.
        -- apply (Qle_trans _ _ _ Hle). by apply IHle, list_elem_of_further.
    + assert (foldr (λ a b, if Qle_bool a b then a else b) x l <= a)%Q as Hge.
      { apply Qlt_le_weak, Qnot_le_lt. intros H%Qle_bool_iff. congruence. }
      split.
      * apply elem_of_cons in IHin as [Heq|Hin].
        -- rewrite Heq. apply list_elem_of_here.
        -- by do 2 apply list_elem_of_further.
      * intros v [->|[->|Hv]%elem_of_cons]%elem_of_cons.
        -- apply IHle, list_elem_of_here.
        -- exact Hge.
        -- by apply IHle, list_elem_of_further.
Qed.

Lemma Qmaximum_spec (values : list Q) (q : Q) :
  Qmaximum values = Some q →
  q ∈ values ∧ ∀ v, v ∈ values → (v <= q)%Q.
Proof.
  destruct values as [|x l]; [done|]. simpl. intros [= <-].
  induction l as [|a l [IHin IHle]]; simpl.
  - split; [apply list_elem_of_here|].
    intros v ->%list_elem_of_singleton. apply Qle_refl.
  - destruct (Qle_bool a (foldr _ x l)) eqn:Hle.
    + apply Qle_bool_iff in Hle. split.
      * apply elem_of_cons in IHin as [Heq|Hin].
        -- rewrite Heq. apply list_elem_of_here.
        -- by do 2 apply list_elem_of_further.
      * intros v [->|[->|Hv]%elem_of_cons]%elem_of_cons.
        -- apply IHle, list_elem_of_here.
        -- exact Hle.
        -- by apply IHle, list_elem_of_further.
    + assert (foldr (λ a b, if Qle_bool a b then b else a) x l <= a)%Q as Hge.
      { apply Qlt_le_weak, Qnot_le_lt. intros H%Qle_bool_iff. congruence. }
      split.
      * apply list_elem_of_further, list_elem_of_here.
      * intros v [->|[->|Hv]%elem_of_cons]%elem_of_cons.
        -- refine (Qle_trans _ _ _ _ Hge). apply IHle, list_elem_of_here.
        -- apply Qle_refl.
        -- refine (Qle_trans _ _ _ _ Hge). by apply IHle, list_elem_of_further.
Qed.

Lemma elem_of_year_values (filtered : list Merged.row) (q : Q) :
  q ∈ dropna (fmap inject_Z <$> (Merged.YEAR <$> filtered)) ↔
  ∃ m y, m ∈ filtered ∧ Merged.YEAR m = Some y ∧ q = inject_Z y.
Proof.
  rewrite elem_of_dropna, <- list_fmap_compose, list_elem_of_fmap. split.
  - intros (m & Hq & Hm). simpl in Hq.
    destruct (Merged.YEAR m) as [y|] eqn:Hy; [|done].
    injection Hq as ->. by exists m, y.
  - intros (m & y & Hm & Hy & ->). exists m. simpl. by rewrite Hy.
Qed.

(** X17.  Over a FilteredView the YEAR column of the statistics table has a
    null minimum exactly when the view is empty; otherwise its minimum and
    maximum are the least and the greatest year of the view's rows, and both
    lie within the bounds of the criteria. *)
Theorem describe_year_extremes
    (c : FilterCriteria) (merged : list Merged.row) (col : Describe.column) :
  ("YEAR", col) ∈ describe (filtered_df c merged) →
  (Describe.min col = None ↔ filtered_df c merged = []) ∧
  ∀ qmin qmax : Q,
    Describe.min col = Some qmin → Describe.max col = Some qmax →
    ∃ ymin ymax : Z,
      qmin = inject_Z ymin ∧ qmax = inject_Z ymax ∧
      (year_range c).1 ≤ ymin ∧ ymin ≤ ymax ∧ ymax ≤ (year_range c).2 ∧
      (∃ m, m ∈ filtered_df c merged ∧ Merged.YEAR m = Some ymin) ∧
      (∃ m, m ∈ filtered_df c merged ∧ Merged.YEAR m = Some ymax) ∧
      ∀ m y, m ∈ filtered_df c merged → Merged.YEAR m = Some y →
             ymin ≤ y ≤ ymax.
Proof.
  intros Hcol.
  apply describe_columns in Hcol
    as [[? _]|[[_ ->]|[[? _]|[[? _]|[[? _]|[[? _]|[[? _]|[? _]]]]]]]];
    try discriminate.
  simpl. split.
  - destruct (filtered_df c merged) as [|m fv] eqn:Hfv; [done|].
    split; [|done]. intros Hmin. exfalso.
    assert (m ∈ filtered_df c merged) as Hm
      by (rewrite Hfv; apply list_elem_of_here).
    apply filtered_df_not_null in Hm as ([y Hy] & _).
    rewrite <- Hfv in Hmin.
    assert (inject_Z y ∈ dropna (fmap inject_Z
                                   <$> (Merged.YEAR <$> filtered_df c merged)))
      as Hin.
    { apply elem_of_year_values. exists m, y.
      split; [rewrite Hfv; apply list_elem_of_here | done]. }
    destruct (dropna _) as [|x l]; [by apply elem_of_nil in Hin | done].
  - intros qmin qmax Hmin Hmax.
    apply Qminimum_spec in Hmin as [Hminin Hminle].
    apply Qmaximum_spec in Hmax as [Hmaxin Hmaxle].
    apply elem_of_year_values in Hminin as (m1 & ymin & Hm1 & Hy1 & ->).
    apply elem_of_year_values in Hmaxin as (m2 & ymax & Hm2 & Hy2 & ->).
    assert (∀ m y, m ∈ filtered_df c merged → Merged.YEAR m = Some y →
                   ymin ≤ y ≤ ymax) as Hall.
    { intros m y Hm Hy.
      assert (inject_Z y ∈ dropna (fmap inject_Z
                                     <$> (Merged.YEAR <$> filtered_df c merged)))
        as Hin by (apply elem_of_year_values; by exists m, y).
      split; rewrite Zle_Qle; [by apply Hminle | by apply Hmaxle]. }
    assert (∀ m y, m ∈ filtered_df c merged → Merged.YEAR m = Some y →
                   (year_range c).1 ≤ y ≤ (year_range c).2) as Hrange.
    { intros m y Hm Hy. apply elem_of_filtered_df in Hm as [Hmask _].
      apply mask_true in Hmask as (y' & _ & _ & Hy' & Hbounds & _).
      congruence. }
    exists ymin, ymax.
    pose proof (Hall m1 ymin Hm1 Hy1). pose proof (Hrange m1 ymin Hm1 Hy1).
    pose proof (Hrange m2 ymax Hm2 Hy2).
    repeat split; try done; try lia.
    + by exists m1.
    + by exists m2.
    + by apply (Hall m y).
    + by apply (Hall m y).
Qed.

Lemma describe_year_extremes_witness :
  ("YEAR", describe_numeric_1d
             (fmap inject_Z
                <$> (Merged.YEAR <$> filtered_df sample_criteria sample_merged)))
    ∈ describe (filtered_df sample_criteria sample_merged) ∧
  ∃ ymin ymax : Z,
    inject_Z 2019 = inject_Z ymin ∧ inject_Z 2021 = inject_Z ymax ∧
    2013 ≤ ymin ∧ ymin ≤ ymax ∧ ymax ≤ 2023.
Proof.
  assert (("YEAR", describe_numeric_1d
                     (fmap inject_Z
                        <$> (Merged.YEAR
                               <$> filtered_df sample_criteria sample_merged)))
            ∈ describe (filtered_df sample_criteria sample_merged)) as Hin.
  { unfold describe. do 5 apply list_elem_of_further. apply list_elem_of_here. }
  split; [exact Hin|].
  destruct (proj2 (describe_year_extremes sample_criteria sample_merged _ Hin)
              (inject_Z 2019) (inject_Z 2021) eq_refl eq_refl)
    as (ymin & ymax & H1 & H2 & H3 & H4 & H5 & _).
  by exists ymin, ymax.
Defined.

(** ** The order of the join *)

(** X18.  The join keeps the permits in the order of the permit table: read
    off its permit columns, it is the permit table with each permit repeated
    once per contractor that bears its contractor name, and kept once when
    none does. *)
Theorem merged_df_permit_order
    (records : list Permit.row) (contractors : list Contractor.row) :
  permit_columns <$> merged_df records contractors
  = records ≫= (λ r,
      replicate (1 `max` length (filter (λ c, Contractor.BUSINESS_NAME c
                                              = Permit.CONTRACTOR_BUSINESS_NAME r)
                                        contractors))%nat r).
Proof.
  unfold merged_df.
  induction records as [|r records IH]; [done|].
  rewrite !bind_cons, fmap_app, IH. f_equal.
  unfold merge_row, matches.
  destruct (filter _ contractors) as [|c cs]; [by destruct r|].
  rewrite <- list_fmap_compose.
  replace (1 `max` length (c :: cs))%nat with (length (c :: cs))
    by (simpl; lia).
  generalize (c :: cs). intros l.
  induction l as [|c' l IHl]; [done|].
  simpl. f_equal; [by destruct r | apply IHl].
Qed.
